(** * face-detector: region expansion and the annotate/crop/save pipeline

    A shallow embedding of the two programs of the repository

    - [main.go]: the batch driver (every file of [input_images]);
    - the single-image driver (one fixed input, a JSON log record),

    and the properties of their specification that can be stated over it.

    The computer-vision and codec libraries (gocv/OpenCV, webp) and the file
    system are external: they appear as the fields of a record [World], one
    field per library call of the source, and the programs are functions of
    that record.  Everything the repository itself computes (the padding and
    clamping arithmetic, the per-detection loop, the file names, the error
    propagation and the exit status) is translated from the source. *)

From Stdlib Require Import ZArith List String Ascii Bool Lia.
From Stdlib Require Import DecimalString DecimalZ.
Import ListNotations.

Local Open Scope string_scope.
Local Open Scope list_scope.
Local Open Scope Z_scope.

(** String concatenation, as Go's [+] and the [%s] of [fmt.Sprintf]. *)
Infix "+++" := String.append (right associativity, at level 60).

(* ================================================================== *)
(** ** Go's [int] *)
(* ================================================================== *)

(** On the 64-bit targets gocv supports, [int] is a 64-bit two's-complement
    integer: [+] and [-] wrap around, [/] truncates toward zero. *)

Definition MinInt : Z := - 2 ^ 63.
Definition MaxInt : Z := 2 ^ 63 - 1.

Definition wrap (z : Z) : Z := (z + 2 ^ 63) mod 2 ^ 64 - 2 ^ 63.

Definition int_add (a b : Z) : Z := wrap (a + b).
Definition int_sub (a b : Z) : Z := wrap (a - b).
Definition int_div (a b : Z) : Z := wrap (Z.quot a b).

(** [int(u)] for [u : uint]. *)
Definition int_of_uint (u : Z) : Z := wrap u.

(** The helpers [max] and [min] of the single-image program (the batch
    program uses the builtins of the same name, which agree on [int]). *)

Definition max (a b : Z) : Z := if a >? b then a else b.
Definition min (a b : Z) : Z := if a <? b then a else b.

(* ================================================================== *)
(** ** [image.Point], [image.Rectangle] *)
(* ================================================================== *)

Record Point : Type := Pt { X : Z; Y : Z }.

Record Rectangle : Type := mkRectangle { Min : Point; Max : Point }.

(** [r.Dx()] and [r.Dy()]. *)
Definition Dx (r : Rectangle) : Z := int_sub (X (Max r)) (X (Min r)).
Definition Dy (r : Rectangle) : Z := int_sub (Y (Max r)) (Y (Min r)).

(** [image.Rect(x0, y0, x1, y1)]: the corners are swapped where needed so
    that the result is well formed. *)
Definition Rect (x0 y0 x1 y1 : Z) : Rectangle :=
  let '(x0, x1) := if x0 >? x1 then (x1, x0) else (x0, x1) in
  let '(y0, y1) := if y0 >? y1 then (y1, y0) else (y0, y1) in
  mkRectangle (Pt x0 y0) (Pt x1 y1).

(** The four coordinates, under the names the specification uses. *)
Definition left (r : Rectangle) : Z := X (Min r).
Definition top (r : Rectangle) : Z := Y (Min r).
Definition right (r : Rectangle) : Z := X (Max r).
Definition bottom (r : Rectangle) : Z := Y (Max r).

(* ================================================================== *)
(** ** The working raster *)
(* ================================================================== *)

(** A [gocv.Mat] is described by the operations that produced its pixels:
    the picture read from a path and resized, the outlines drawn on it so
    far, and possibly a region cut out of it.  [Cols] and [Rows] are what
    the source reads from it.

    [m.Region(r)] is a view that shares its pixels with [m]; the source
    encodes the view inside [cropAndSaveFace] and closes it before anything
    else is drawn on [m], so a file holds the pixels [m] had when it was
    saved, which is the history recorded here. *)

Inductive Mat : Type :=
| Resized (path : string) (cols rows : Z)
    (* gocv.IMRead, then gocv.Resize to cols x rows *)
| Outlined (m : Mat) (r : Rectangle)
    (* gocv.Rectangle(&m, r, color.RGBA{255, 0, 0, 0}, 3) *)
| Region (m : Mat) (r : Rectangle).
    (* m.Region(r) *)

Fixpoint Cols (m : Mat) : Z :=
  match m with
  | Resized _ cols _ => cols
  | Outlined m' _ => Cols m'
  | Region _ r => Dx r
  end.

Fixpoint Rows (m : Mat) : Z :=
  match m with
  | Resized _ _ rows => rows
  | Outlined m' _ => Rows m'
  | Region _ r => Dy r
  end.

(** The outlines a raster carries, oldest first. *)
Fixpoint outlines (m : Mat) : list Rectangle :=
  match m with
  | Resized _ _ _ => []
  | Outlined m' r => outlines m' ++ [r]
  | Region m' _ => outlines m'
  end.

(* ================================================================== *)
(** ** The region expander *)
(* ================================================================== *)

(** The rectangle drawn on the working raster: the body of the loop of
    [detectFace], from [extraWidth := ...] to the call of [image.Rect]. *)
Definition expandedRect (resizedImg : Mat) (face : Rectangle) : Rectangle :=
  let extraWidth := int_div (Dx face) 2 in
  let extraHeightTop := int_div (Dy face) 2 in
  let extraHeightBottom := Dy face in
  Rect
    (max 0 (int_sub (X (Min face)) extraWidth))
    (max 0 (int_sub (Y (Min face)) extraHeightTop))
    (min (Cols resizedImg) (int_add (X (Max face)) extraWidth))
    (min (Rows resizedImg) (int_add (Y (Max face)) extraHeightBottom)).

(** The rectangle cut out for the per-face file: the first statements of
    [cropAndSaveFace]. *)
Definition cropRect (img : Mat) (face : Rectangle) : Rectangle :=
  let extraWidth := int_div (Dx face) 2 in
  let extraHeightTop := int_div (Dy face) 2 in
  let extraHeightBottom := Dy face in
  Rect
    (max 0 (int_sub (X (Min face)) extraWidth))
    (max 0 (int_sub (Y (Min face)) extraHeightTop))
    (min (Cols img) (int_add (X (Max face)) extraWidth))
    (min (Rows img) (int_add (Y (Max face)) extraHeightBottom)).

(** The formula of the specification, over the integers, for a raster of
    [W] columns and [H] rows. *)
Definition spec_expand (W H : Z) (r : Rectangle) : Rectangle :=
  let w := right r - left r in
  let h := bottom r - top r in
  mkRectangle
    (Pt (Z.max 0 (left r - w / 2)) (Z.max 0 (top r - h / 2)))
    (Pt (Z.min W (right r + w / 2)) (Z.min H (bottom r + h))).

(** What the detector hands over: a well-formed rectangle whose coordinates
    are sums of two C [int]s. *)
Definition well_formed (r : Rectangle) : Prop :=
  left r <= right r /\ top r <= bottom r.

Definition coords_in_range (r : Rectangle) : Prop :=
  - 2 ^ 32 <= left r /\ right r <= 2 ^ 32 /\
  - 2 ^ 32 <= top r /\ bottom r <= 2 ^ 32.

(** The dimensions of an OpenCV matrix are non-negative C [int]s. *)
Definition MaxDim : Z := 2 ^ 31 - 1.

Definition dims_ok (W H : Z) : Prop :=
  0 <= W <= MaxDim /\ 0 <= H <= MaxDim.

(** The padded box still meets the raster: it starts no further right than
    column [W], ends no further left than column 0, and likewise for rows. *)
Definition meets_raster (W H : Z) (r : Rectangle) : Prop :=
  left r - (right r - left r) / 2 <= W /\
  0 <= right r + (right r - left r) / 2 /\
  top r - (bottom r - top r) / 2 <= H /\
  0 <= bottom r + (bottom r - top r).

(** The rectangle lies inside the raster. *)
Definition inside (W H : Z) (r : Rectangle) : Prop :=
  0 <= left r /\ left r <= right r /\ right r <= W /\
  0 <= top r /\ top r <= bottom r /\ bottom r <= H.

(** [s] contains [r]. *)
Definition contains (s r : Rectangle) : Prop :=
  left s <= left r /\ right r <= right s /\
  top s <= top r /\ bottom r <= bottom s.

(* ================================================================== *)
(** ** Paths and formatting *)
(* ================================================================== *)

Definition nl : string := String (ascii_of_nat 10) EmptyString.

(** The verb [%d] of [fmt] applied to an [int]. *)
Definition itoa (n : Z) : string := NilZero.string_of_int (Z.to_int n).

Definition IsPathSeparator (c : ascii) : bool := Ascii.eqb c "/"%char.

(** [filepath.Base] and [filepath.Ext] (Unix), on the characters of the
    path read from its end. *)

Fixpoint strip_separators (rev_path : list ascii) : list ascii :=
  match rev_path with
  | c :: rest => if IsPathSeparator c then strip_separators rest else rev_path
  | [] => []
  end.

Fixpoint last_element (rev_path acc : list ascii) : list ascii :=
  match rev_path with
  | c :: rest => if IsPathSeparator c then acc else last_element rest (c :: acc)
  | [] => acc
  end.

Definition Base (path : string) : string :=
  if String.eqb path "" then "."
  else
    let elem :=
      last_element (strip_separators (rev (list_ascii_of_string path))) [] in
    match elem with
    | [] => "/"
    | _ => string_of_list_ascii elem
    end.

Fixpoint ext_from (rev_path acc : list ascii) : list ascii :=
  match rev_path with
  | c :: rest =>
      if IsPathSeparator c then []
      else if Ascii.eqb c "."%char then c :: acc
      else ext_from rest (c :: acc)
  | [] => []
  end.

Definition Ext (path : string) : string :=
  string_of_list_ascii (ext_from (rev (list_ascii_of_string path)) []).

(** [baseFilename[:len(baseFilename)-len(filepath.Ext(baseFilename))]]
    for [baseFilename := filepath.Base(imagePath)]. *)
Definition baseFilename (imagePath : string) : string :=
  let baseFilename := Base imagePath in
  substring 0 (String.length baseFilename - String.length (Ext baseFilename))
    baseFilename.

(* ================================================================== *)
(** ** The outside world *)
(* ================================================================== *)

(** A Go [error]: [None] is [nil], [Some msg] an error whose text is
    [msg]. *)
Definition error : Type := option string.

Record FileInfo : Type := mkFileInfo { Name : string; IsDir : bool }.

(** The files written so far, oldest first.  The encoding is lossless, so
    a file is identified with the raster that was encoded into it. *)
Definition Files : Type := list (string * Mat).

(** The keys of the log record of the single-image program. *)
Record LogData : Type :=
  mkLogData { input_path : string; output_path : string; has_face : bool }.

(** One field per external call of the source. *)
Record World : Type := mkWorld {
  (* classifier.Load(file) *)
  Load : string -> bool;
  (* gocv.IMRead(path, gocv.IMReadColor).Empty() *)
  IMRead_Empty : string -> bool;
  (* gocv.CvtColor to gray, then classifier.DetectMultiScaleWithParams
     (gray, 1.1, 5, 0, image.Point{30, 30}, image.Point{}) *)
  DetectMultiScale : Mat -> list Rectangle;
  (* the error of mat.ToImage() *)
  ToImage : Mat -> error;
  (* the error of webp.Encode(&buf, img, &webp.Options{Lossless: true}) *)
  Encode : Mat -> error;
  (* the error of ioutil.WriteFile(path, bytes, 0644), which may depend on
     what is on the disk already *)
  WriteFile : Files -> string -> Mat -> error;
  (* ioutil.ReadDir(dir) *)
  ReadDir : string -> list FileInfo * error;
  (* the error of os.MkdirAll(dir, os.ModePerm) *)
  MkdirAll : string -> error;
  (* filepath.Join(dir, name) *)
  Join : string -> string -> string;
  (* json.MarshalIndent(logData, "", "  ") *)
  MarshalIndent : LogData -> string
}.

(** What a run leaves behind. *)
Record Sys : Type := mkSys {
  written : Files;
  stdout : list string;
  stderr : list string
}.

Definition start : Sys := mkSys [] [] [].

(** Computations that return an [A] and change the [Sys]. *)
Definition IO (A : Type) : Type := Sys -> A * Sys.

Definition ret {A : Type} (a : A) : IO A := fun s => (a, s).

Definition bind {A B : Type} (m : IO A) (k : A -> IO B) : IO B :=
  fun s => let (a, s') := m s in k a s'.

Notation "x <- m ;; k" := (bind m (fun x => k))
  (at level 61, m at next level, right associativity).
Notation "m ;;; k" := (bind m (fun _ => k))
  (at level 61, right associativity).

(** [fmt.Printf] and [fmt.Fprintf(os.Stderr, ...)], given the formatted
    text. *)
Definition Printf (text : string) : IO unit :=
  fun s => (tt, mkSys (written s) (stdout s ++ [text]) (stderr s)).

Definition Fprintf_Stderr (text : string) : IO unit :=
  fun s => (tt, mkSys (written s) (stdout s) (stderr s ++ [text])).

(** [ioutil.WriteFile]: the file exists afterwards when the call
    succeeds; a call that fails is taken to leave no file. *)
Definition writeFile (w : World) (path : string) (img : Mat) : IO error :=
  fun s =>
    match WriteFile w (written s) path img with
    | Some err => (Some err, s)
    | None => (None, mkSys (written s ++ [(path, img)]) (stdout s) (stderr s))
    end.

(* ================================================================== *)
(** ** Saving (the same in both programs) *)
(* ================================================================== *)

Definition saveAsWebP (w : World) (img : Mat) (outputPath : string) : IO error :=
  match Encode w img with
  | Some err => ret (Some ("failed to encode image to WebP: " +++ err))
  | None => writeFile w outputPath img
  end.

Definition saveMatAsWebP (w : World) (mat : Mat) (outputPath : string) : IO error :=
  match ToImage w mat with
  | Some err => ret (Some ("failed to convert Mat to Image: " +++ err))
  | None => saveAsWebP w mat outputPath
  end.

Definition classifier_file : string := "haarcascade_frontalface_default.xml".

(* ================================================================== *)
(** ** The batch program ([main.go]) *)
(* ================================================================== *)

Module Batch.

Definition cropAndSaveFace (w : World) (img : Mat) (face : Rectangle)
    (index : Z) (outputDir baseFilename : string) : IO error :=
  let cropRect := cropRect img face in
  let croppedImg := Region img cropRect in
  let outputPath :=
    Join w outputDir (baseFilename +++ "_face_" +++ itoa index +++ ".webp") in
  saveMatAsWebP w croppedImg outputPath.

(** [for i, face := range faces { ... }] of [detectFace], entered with the
    index [i] of the first rectangle of [faces].  A slice is no longer than
    the largest [int], so [i+1] does not wrap. *)
Fixpoint detectFace_loop (w : World) (faces : list Rectangle) (i : Z)
    (resizedImg : Mat) (outputDir baseFilename : string) : IO (Mat * error) :=
  match faces with
  | [] => ret (resizedImg, None)
  | face :: rest =>
      let expandedRect := expandedRect resizedImg face in
      let resizedImg := Outlined resizedImg expandedRect in
      err <- cropAndSaveFace w resizedImg face (i + 1) outputDir baseFilename ;;
      match err with
      | Some err => ret (resizedImg, Some ("error saving face image: " +++ err))
      | None => detectFace_loop w rest (i + 1) resizedImg outputDir baseFilename
      end
  end.

Definition detectFace (w : World) (imagePath outputImagePath outputDir : string)
    (maxWidth maxHeight : Z) : IO (bool * error) :=
  if negb (Load w classifier_file) then
    ret (false, Some "error loading Haar cascade file")
  else if IMRead_Empty w imagePath then
    ret (false, Some "error reading image")
  else
    let resizedImg :=
      Resized imagePath (int_of_uint maxWidth) (int_of_uint maxHeight) in
    let faces := DetectMultiScale w resizedImg in
    if (List.length faces =? 0)%nat then ret (false, None)
    else
      let baseFilename := baseFilename imagePath in
      r <- detectFace_loop w faces 0 resizedImg outputDir baseFilename ;;
      match r with
      | (_, Some err) => ret (false, Some err)
      | (resizedImg, None) =>
          err <- saveMatAsWebP w resizedImg outputImagePath ;;
          match err with
          | Some err =>
              ret (false,
                   Some ("error saving output image in WebP format: " +++ err))
          | None => ret (true, None)
          end
      end.

(** [for _, file := range files { ... }] of [processImages]. *)
Fixpoint processImages_loop (w : World) (files : list FileInfo)
    (inputDir outputDir : string) (maxWidth maxHeight : Z) : IO unit :=
  match files with
  | [] => ret tt
  | file :: rest =>
      if IsDir file then
        processImages_loop w rest inputDir outputDir maxWidth maxHeight
      else
        let inputPath := Join w inputDir (Name file) in
        let outputImagePath :=
          Join w outputDir ("output_" +++ Name file +++ ".webp") in
        Printf ("Processing file: " +++ inputPath +++ nl) ;;;
        r <- detectFace w inputPath outputImagePath outputDir
               maxWidth maxHeight ;;
        match snd r with
        | Some err =>
            Printf ("Error processing file " +++ inputPath +++ ": "
                    +++ err +++ nl)
        | None => ret tt
        end ;;;
        processImages_loop w rest inputDir outputDir maxWidth maxHeight
  end.

Definition processImages (w : World) (inputDir outputDir : string)
    (maxWidth maxHeight : Z) : IO error :=
  match ReadDir w inputDir with
  | (_, Some err) => ret (Some ("failed to read input directory: " +++ err))
  | (files, None) =>
      processImages_loop w files inputDir outputDir maxWidth maxHeight ;;;
      ret None
  end.

(** The result is the exit status of the process. *)
Definition main (w : World) : IO Z :=
  let inputDir := "input_images" in
  let outputDir := "output_images" in
  let maxWidth := 1024 in
  let maxHeight := 1024 in
  match MkdirAll w outputDir with
  | Some err =>
      Fprintf_Stderr ("Error creating output directory: " +++ err +++ nl) ;;;
      ret 1
  | None =>
      err <- processImages w inputDir outputDir maxWidth maxHeight ;;
      match err with
      | Some err => Fprintf_Stderr ("Error: " +++ err +++ nl) ;;; ret 1
      | None => ret 0
      end
  end.

End Batch.

(* ================================================================== *)
(** ** The single-image program *)
(* ================================================================== *)

Module Single.

Definition cropAndSaveFace (w : World) (img : Mat) (face : Rectangle)
    (outputImagePath : string) (index : Z) : IO error :=
  let cropRect := cropRect img face in
  let croppedImg := Region img cropRect in
  saveMatAsWebP w croppedImg ("face_" +++ itoa index +++ ".webp").

Fixpoint detectFace_loop (w : World) (faces : list Rectangle) (i : Z)
    (resizedImg : Mat) (outputImagePath : string) : IO (Mat * error) :=
  match faces with
  | [] => ret (resizedImg, None)
  | face :: rest =>
      let expandedRect := expandedRect resizedImg face in
      let resizedImg := Outlined resizedImg expandedRect in
      err <- cropAndSaveFace w resizedImg face outputImagePath (i + 1) ;;
      match err with
      | Some err => ret (resizedImg, Some ("error saving face image: " +++ err))
      | None => detectFace_loop w rest (i + 1) resizedImg outputImagePath
      end
  end.

Definition detectFace (w : World) (imagePath outputImagePath : string)
    (maxWidth maxHeight : Z) : IO (bool * error) :=
  if negb (Load w classifier_file) then
    ret (false, Some "error loading Haar cascade file")
  else if IMRead_Empty w imagePath then
    ret (false, Some "error reading image")
  else
    let resizedImg :=
      Resized imagePath (int_of_uint maxWidth) (int_of_uint maxHeight) in
    let faces := DetectMultiScale w resizedImg in
    if (List.length faces =? 0)%nat then ret (false, None)
    else
      r <- detectFace_loop w faces 0 resizedImg outputImagePath ;;
      match r with
      | (_, Some err) => ret (false, Some err)
      | (resizedImg, None) =>
          err <- saveMatAsWebP w resizedImg outputImagePath ;;
          match err with
          | Some err =>
              ret (false,
                   Some ("error saving output image in WebP format: " +++ err))
          | None => ret (true, None)
          end
      end.

Definition processImage (w : World) (inputPath outputPath : string)
    (maxWidth maxHeight : Z) : IO error :=
  r <- detectFace w inputPath outputPath maxWidth maxHeight ;;
  match r with
  | (_, Some err) => ret (Some ("failed to detect face: " +++ err))
  | (hasFace, None) =>
      let logData := mkLogData inputPath outputPath hasFace in
      let logJSON := MarshalIndent w logData in
      Printf ("Face detection log:" +++ nl +++ logJSON +++ nl) ;;;
      Printf ("Image successfully processed and saved to: "
              +++ outputPath +++ nl) ;;;
      ret None
  end.

Definition main (w : World) : IO Z :=
  let inputPath := "teest.jpg" in
  let outputPath := "output.webp" in
  let maxWidth := 1024 in
  let maxHeight := 1024 in
  err <- processImage w inputPath outputPath maxWidth maxHeight ;;
  match err with
  | Some err => Fprintf_Stderr ("Error: " +++ err +++ nl) ;;; ret 1
  | None => ret 0
  end.

End Single.

(* ================================================================== *)
(** ** Vocabulary of the statements *)
(* ================================================================== *)

(** The working raster once the outlines of [faces] have been drawn, in
    order. *)
Definition annotated (m : Mat) (faces : list Rectangle) : Mat :=
  fold_left (fun m face => Outlined m (expandedRect m face)) faces m.

(** The per-face files of a raster [m] whose detections [faces] start after
    index [i], in the order of the detections, when the file of index [k]
    goes to [path_of k]. *)
Fixpoint crop_files (path_of : Z -> string) (m : Mat) (i : Z)
    (faces : list Rectangle) : Files :=
  match faces with
  | [] => []
  | face :: rest =>
      let m' := Outlined m (expandedRect m face) in
      (path_of (i + 1), Region m' (cropRect m' face))
        :: crop_files path_of m' (i + 1) rest
  end.

(** Where each program puts the file of the detection of index [index]. *)
Definition batch_face_path (w : World) (outputDir baseFilename : string)
    (index : Z) : string :=
  Join w outputDir (baseFilename +++ "_face_" +++ itoa index +++ ".webp").

Definition single_face_path (index : Z) : string :=
  "face_" +++ itoa index +++ ".webp".

(** The file name of the specification: [<baseFilename>_face_<index>.<ext>],
    the extension being that of the lossless format. *)
Definition spec_face_name (baseFilename : string) (index : Z) : string :=
  baseFilename +++ "_face_" +++ itoa index +++ ".webp".

(** The error, if any, of saving [mat] at [path] when [fs] is on the
    disk. *)
Definition save_outcome (w : World) (fs : Files) (path : string) (mat : Mat)
    : error :=
  match ToImage w mat with
  | Some err => Some ("failed to convert Mat to Image: " +++ err)
  | None =>
      match Encode w mat with
      | Some err => Some ("failed to encode image to WebP: " +++ err)
      | None => WriteFile w fs path mat
      end
  end.

(** Saving the files of [todo] one after the other on top of [fs]: the
    position and the error of the first save that fails. *)
Fixpoint first_failure (w : World) (fs : Files) (todo : Files)
    : option (nat * string) :=
  match todo with
  | [] => None
  | (path, mat) :: rest =>
      match save_outcome w fs path mat with
      | Some err => Some (0%nat, err)
      | None =>
          match first_failure w (fs ++ [(path, mat)]) rest with
          | Some (k, err) => Some (S k, err)
          | None => None
          end
      end
  end.

Definition add_files (s : Sys) (fs : Files) : Sys :=
  mkSys (written s ++ fs) (stdout s) (stderr s).

Definition add_stdout (s : Sys) (lines : list string) : Sys :=
  mkSys (written s) (stdout s ++ lines) (stderr s).

Definition add_stderr (s : Sys) (lines : list string) : Sys :=
  mkSys (written s) (stdout s) (stderr s ++ lines).

(** The per-detection loop of both programs, the path of the per-face file
    left open. *)
Fixpoint crop_loop (w : World) (path_of : Z -> string)
    (faces : list Rectangle) (i : Z) (m : Mat) : IO (Mat * error) :=
  match faces with
  | [] => ret (m, None)
  | face :: rest =>
      let m' := Outlined m (expandedRect m face) in
      err <- saveMatAsWebP w (Region m' (cropRect m' face)) (path_of (i + 1)) ;;
      match err with
      | Some err => ret (m', Some ("error saving face image: " +++ err))
      | None => crop_loop w path_of rest (i + 1) m'
      end
  end.

(** Every file of [todo], saved in this order on top of [fs], is saved
    without error. *)
Definition saves_succeed (w : World) (fs : Files) (todo : Files) : Prop :=
  forall j path mat,
    nth_error todo j = Some (path, mat) ->
    save_outcome w (fs ++ firstn j todo) path mat = None.

(** What [detectFace] does, in one piece: the per-face files go to
    [path_of], the annotated raster to [outputImagePath]. *)
Definition detect_outcome (w : World) (path_of : Z -> string)
    (imagePath outputImagePath : string) (maxWidth maxHeight : Z) (s : Sys)
    : (bool * error) * Sys :=
  if negb (Load w classifier_file) then
    ((false, Some "error loading Haar cascade file"), s)
  else if IMRead_Empty w imagePath then
    ((false, Some "error reading image"), s)
  else
    let m0 := Resized imagePath (int_of_uint maxWidth) (int_of_uint maxHeight) in
    let faces := DetectMultiScale w m0 in
    match faces with
    | [] => ((false, None), s)
    | _ :: _ =>
        let crops := crop_files path_of m0 0 faces in
        match first_failure w (written s) crops with
        | Some (k, err) =>
            ((false, Some ("error saving face image: " +++ err)),
             add_files s (firstn k crops))
        | None =>
            let main_file := (outputImagePath, annotated m0 faces) in
            match save_outcome w (written s ++ crops)
                    outputImagePath (annotated m0 faces) with
            | Some err =>
                ((false,
                  Some ("error saving output image in WebP format: " +++ err)),
                 add_files s crops)
            | None => ((true, None), add_files s (crops ++ [main_file]))
            end
        end
    end.

(** The two programs side by side. *)
Inductive Variant : Type :=
| BatchVariant (outputDir : string)
| SingleVariant.

Definition detectFace_of (v : Variant) (w : World)
    (imagePath outputImagePath : string) (maxWidth maxHeight : Z)
    : IO (bool * error) :=
  match v with
  | BatchVariant outputDir =>
      Batch.detectFace w imagePath outputImagePath outputDir maxWidth maxHeight
  | SingleVariant =>
      Single.detectFace w imagePath outputImagePath maxWidth maxHeight
  end.

Definition face_path_of (v : Variant) (w : World) (imagePath : string)
    : Z -> string :=
  match v with
  | BatchVariant outputDir =>
      batch_face_path w outputDir (baseFilename imagePath)
  | SingleVariant => single_face_path
  end.

(** The working raster of a picture, its detections, the per-face files
    they call for and the annotated raster. *)
Definition working_raster (imagePath : string) (maxWidth maxHeight : Z) : Mat :=
  Resized imagePath (int_of_uint maxWidth) (int_of_uint maxHeight).

Definition detections (w : World) (imagePath : string)
    (maxWidth maxHeight : Z) : list Rectangle :=
  DetectMultiScale w (working_raster imagePath maxWidth maxHeight).

Definition face_files (v : Variant) (w : World) (imagePath : string)
    (maxWidth maxHeight : Z) : Files :=
  crop_files (face_path_of v w imagePath)
    (working_raster imagePath maxWidth maxHeight) 0
    (detections w imagePath maxWidth maxHeight).

Definition annotated_output (w : World) (imagePath : string)
    (maxWidth maxHeight : Z) : Mat :=
  annotated (working_raster imagePath maxWidth maxHeight)
    (detections w imagePath maxWidth maxHeight).

Definition is_region (m : Mat) : bool :=
  match m with
  | Region _ _ => true
  | _ => false
  end.

(** The lines the batch driver prints for one directory entry. *)
Definition processing_line (inputPath : string) : string :=
  "Processing file: " +++ inputPath +++ nl.

Definition error_line (inputPath err : string) : string :=
  "Error processing file " +++ inputPath +++ ": " +++ err +++ nl.

(* ------------------------------------------------------------------ *)
(** *** Sample worlds *)
(* ------------------------------------------------------------------ *)

Definition slash_join (dir name : string) : string := dir +++ "/" +++ name.

Definition sample_json (l : LogData) : string :=
  "{has_face: " +++ (if has_face l then "true" else "false")
  +++ ", input_path: " +++ input_path l
  +++ ", output_path: " +++ output_path l +++ "}".

(** The two scenarios of the specification. *)
Definition face_a : Rectangle := mkRectangle (Pt 100 100) (Pt 200 220).
Definition face_b : Rectangle := mkRectangle (Pt 0 0) (Pt 40 40).

(** A vertical segment: no width, height 10. *)
Definition face_thin : Rectangle := mkRectangle (Pt 10 10) (Pt 10 20).

(** A single point: neither width nor height. *)
Definition face_point : Rectangle := mkRectangle (Pt 7 7) (Pt 7 7).

Definition sample_dir : list FileInfo :=
  [mkFileInfo "a.jpg" false; mkFileInfo "old" true; mkFileInfo "b.png" false].

(** Everything works, every picture shows [faces]. *)
Definition world_with (faces : list Rectangle) : World :=
  mkWorld (fun _ => true) (fun _ => false) (fun _ => faces)
    (fun _ => None) (fun _ => None) (fun _ _ _ => None)
    (fun _ => (sample_dir, None)) (fun _ => None) slash_join sample_json.

(** The classifier definition file is missing. *)
Definition world_no_classifier : World :=
  mkWorld (fun _ => false) (fun _ => false) (fun _ => [face_a; face_b])
    (fun _ => None) (fun _ => None) (fun _ _ _ => None)
    (fun _ => (sample_dir, None)) (fun _ => None) slash_join sample_json.

(** The disk is full once one file has been written. *)
Definition world_disk_full : World :=
  mkWorld (fun _ => true) (fun _ => false) (fun _ => [face_a; face_b])
    (fun _ => None) (fun _ => None)
    (fun fs _ _ =>
       match fs with
       | [] => None
       | _ => Some "no space left on device"
       end)
    (fun _ => (sample_dir, None)) (fun _ => None) slash_join sample_json.

(** The input directory is empty, or cannot be listed. *)
Definition world_empty_dir : World :=
  mkWorld (fun _ => true) (fun _ => false) (fun _ => [face_a])
    (fun _ => None) (fun _ => None) (fun _ _ _ => None)
    (fun _ => ([], None)) (fun _ => None) slash_join sample_json.

Definition world_no_dir : World :=
  mkWorld (fun _ => true) (fun _ => false) (fun _ => [face_a])
    (fun _ => None) (fun _ => None) (fun _ _ _ => None)
    (fun _ => ([], Some "open input_images: no such file or directory"))
    (fun _ => None) slash_join sample_json.

(** [a.jpg] cannot be decoded; the other pictures show [face_a]. *)
Definition world_bad_picture : World :=
  mkWorld (fun _ => true) (fun path => String.eqb path "input_images/a.jpg")
    (fun _ => [face_a])
    (fun _ => None) (fun _ => None) (fun _ _ _ => None)
    (fun _ => (sample_dir, None)) (fun _ => None) slash_join sample_json.

(* ------------------------------------------------------------------ *)
(** *** Vocabulary of the further properties *)
(* ------------------------------------------------------------------ *)

(** The entries of a directory listing that the batch driver looks at. *)
Definition non_directories (files : list FileInfo) : list FileInfo :=
  filter (fun file => negb (IsDir file)) files.

(** Saving never fails, whatever is saved and whatever is on the disk. *)
Definition always_saves (w : World) : Prop :=
  forall fs path mat, save_outcome w fs path mat = None.

(** What the batch driver leaves for one directory entry when the
    classifier loads and saving never fails: the files, and the lines on
    the standard output. *)
Definition batch_entry_files (w : World) (inputDir outputDir : string)
    (maxWidth maxHeight : Z) (file : FileInfo) : Files :=
  if IsDir file then []
  else
    let inputPath := Join w inputDir (Name file) in
    if IMRead_Empty w inputPath then []
    else
      match detections w inputPath maxWidth maxHeight with
      | [] => []
      | _ :: _ =>
          face_files (BatchVariant outputDir) w inputPath maxWidth maxHeight
            ++ [(Join w outputDir ("output_" +++ Name file +++ ".webp"),
                 annotated_output w inputPath maxWidth maxHeight)]
      end.

Definition batch_entry_lines (w : World) (inputDir : string)
    (file : FileInfo) : list string :=
  if IsDir file then []
  else
    let inputPath := Join w inputDir (Name file) in
    if IMRead_Empty w inputPath then
      [processing_line inputPath; error_line inputPath "error reading image"]
    else [processing_line inputPath].

(** The two lines of the single-image driver after a run without error. *)
Definition single_report (w : World) (inputPath outputPath : string)
    (hasFace : bool) : list string :=
  ["Face detection log:" +++ nl
     +++ MarshalIndent w (mkLogData inputPath outputPath hasFace) +++ nl;
   "Image successfully processed and saved to: " +++ outputPath +++ nl].

(** The region cut out for the first detection [face] of a raster [m]. *)
Definition first_crop (m : Mat) (face : Rectangle) : Mat :=
  Region (Outlined m (expandedRect m face))
    (cropRect (Outlined m (expandedRect m face)) face).

(** The encoder refuses regions. *)
Definition world_encoder_fails : World :=
  mkWorld (fun _ => true) (fun _ => false) (fun _ => [face_a; face_b])
    (fun _ => None)
    (fun mat => if is_region mat then Some "unsupported pixel format" else None)
    (fun _ _ _ => None)
    (fun _ => (sample_dir, None)) (fun _ => None) slash_join sample_json.

(** The per-face files are written, the annotated raster cannot be. *)
Definition world_output_fails : World :=
  mkWorld (fun _ => true) (fun _ => false) (fun _ => [face_a; face_b])
    (fun _ => None) (fun _ => None)
    (fun _ path _ =>
       if String.eqb path "output.webp" then Some "permission denied"
       else None)
    (fun _ => (sample_dir, None)) (fun _ => None) slash_join sample_json.

(** The output directory cannot be created. *)
Definition world_no_output_dir : World :=
  mkWorld (fun _ => true) (fun _ => false) (fun _ => [face_a])
    (fun _ => None) (fun _ => None) (fun _ _ _ => None)
    (fun _ => (sample_dir, None))
    (fun _ => Some "mkdir output_images: permission denied")
    slash_join sample_json.

(* ================================================================== *)
(** ** The model at work *)
(* ================================================================== *)

Example base_name_of_a_picture :
  baseFilename "input_images/photo.jpg" = "photo" /\
  baseFilename "input_images/archive.tar.gz" = "archive.tar" /\
  baseFilename "plain" = "plain".
Proof. repeat split. Qed.

Example index_formatting :
  itoa 1 = "1" /\ itoa 12 = "12" /\ itoa 0 = "0".
Proof. repeat split. Qed.

(** The batch program on a directory with two pictures and a
    sub-directory, each picture showing two faces. *)
Example batch_run_on_sample_directory :
  fst (Batch.main (world_with [face_a; face_b]) start) = 0 /\
  map fst (written (snd (Batch.main (world_with [face_a; face_b]) start))) =
    ["output_images/a_face_1.webp"; "output_images/a_face_2.webp";
     "output_images/output_a.jpg.webp";
     "output_images/b_face_1.webp"; "output_images/b_face_2.webp";
     "output_images/output_b.png.webp"] /\
  stdout (snd (Batch.main (world_with [face_a; face_b]) start)) =
    ["Processing file: input_images/a.jpg" +++ nl;
     "Processing file: input_images/b.png" +++ nl].
Proof. repeat split. Qed.

(** An empty input directory: nothing processed, nothing printed, exit
    status 0.  A directory that cannot be listed: exit status 1. *)
Example batch_run_on_empty_directory :
  Batch.main world_empty_dir start = (0, start).
Proof. reflexivity. Qed.

Example batch_run_without_input_directory :
  Batch.main world_no_dir start =
  (1, mkSys [] []
        ["Error: failed to read input directory: "
           +++ "open input_images: no such file or directory" +++ nl]).
Proof. reflexivity. Qed.

(* ================================================================== *)
(** ** Arithmetic of the expander *)
(* ================================================================== *)

Lemma wrap_small (z : Z) : MinInt <= z <= MaxInt -> wrap z = z.
Proof.
  unfold wrap, MinInt, MaxInt. intros Hz.
  rewrite Z.mod_small by lia. lia.
Qed.

Ltac int_range := unfold MinInt, MaxInt; lia.

(** Removes every [wrap] whose argument is in range by the context. *)
Ltac unwrap :=
  repeat match goal with
         | |- context [wrap ?z] => rewrite (wrap_small z) by int_range
         end.

Lemma max_Zmax (a b : Z) : max a b = Z.max a b.
Proof. unfold max. destruct (Z.gtb_spec a b); lia. Qed.

Lemma min_Zmin (a b : Z) : min a b = Z.min a b.
Proof. unfold min. destruct (Z.ltb_spec a b); lia. Qed.

Lemma Rect_ordered (x0 y0 x1 y1 : Z) :
  x0 <= x1 -> y0 <= y1 ->
  Rect x0 y0 x1 y1 = mkRectangle (Pt x0 y0) (Pt x1 y1).
Proof.
  intros Hx Hy. unfold Rect.
  destruct (Z.gtb_spec x0 x1); [lia|].
  destruct (Z.gtb_spec y0 y1); [lia|]. reflexivity.
Qed.

Lemma half_bounds (w : Z) : 0 <= w -> 0 <= w / 2 <= w.
Proof.
  intros Hw. split.
  - apply Z.div_pos; lia.
  - apply Z.div_le_upper_bound; lia.
Qed.

Lemma cropRect_expandedRect (m : Mat) (face : Rectangle) :
  cropRect m face = expandedRect m face.
Proof. reflexivity. Qed.

Lemma inside_well_formed W H r : inside W H r -> well_formed r.
Proof. unfold inside, well_formed. lia. Qed.

Lemma inside_coords_in_range W H r :
  dims_ok W H -> inside W H r -> coords_in_range r.
Proof. unfold inside, dims_ok, coords_in_range, MaxDim. lia. Qed.

Lemma inside_meets_raster W H r : inside W H r -> meets_raster W H r.
Proof.
  unfold inside, meets_raster. intros Hin.
  pose proof (half_bounds (right r - left r)).
  pose proof (half_bounds (bottom r - top r)). lia.
Qed.

(** Under the detector's contract none of the operations wraps, and the
    source's arithmetic is the specification's. *)
Lemma expandedRect_corners (m : Mat) (r : Rectangle) :
  well_formed r -> coords_in_range r ->
  expandedRect m r =
  Rect (Z.max 0 (left r - (right r - left r) / 2))
       (Z.max 0 (top r - (bottom r - top r) / 2))
       (Z.min (Cols m) (right r + (right r - left r) / 2))
       (Z.min (Rows m) (bottom r + (bottom r - top r))).
Proof.
  unfold well_formed, coords_in_range, left, right, top, bottom.
  intros [Hx Hy] (Hl & Hr & Ht & Hb).
  pose proof (half_bounds (X (Max r) - X (Min r))) as Hw.
  pose proof (half_bounds (Y (Max r) - Y (Min r))) as Hh.
  unfold expandedRect, Dx, Dy, int_div, int_sub, int_add.
  rewrite !max_Zmax, !min_Zmin.
  rewrite (wrap_small (X (Max r) - X (Min r))) by int_range.
  rewrite (wrap_small (Y (Max r) - Y (Min r))) by int_range.
  rewrite !Z.quot_div_nonneg by lia.
  unwrap. reflexivity.
Qed.

Lemma expandedRect_spec (m : Mat) (r : Rectangle) :
  well_formed r -> coords_in_range r ->
  dims_ok (Cols m) (Rows m) -> meets_raster (Cols m) (Rows m) r ->
  expandedRect m r = spec_expand (Cols m) (Rows m) r.
Proof.
  intros Hwf Hrange Hdims Hmeets.
  rewrite expandedRect_corners by assumption.
  unfold spec_expand.
  destruct Hwf as [Hx Hy]. destruct Hdims as [HW HH].
  destruct Hmeets as (M1 & M2 & M3 & M4).
  pose proof (half_bounds (right r - left r)) as Hw.
  pose proof (half_bounds (bottom r - top r)) as Hh.
  apply Rect_ordered; lia.
Qed.

(* ================================================================== *)
(** ** Drawing leaves the dimensions alone *)
(* ================================================================== *)

Lemma expandedRect_dims (m m' : Mat) (face : Rectangle) :
  Cols m' = Cols m -> Rows m' = Rows m ->
  expandedRect m' face = expandedRect m face.
Proof. intros HC HR. unfold expandedRect. now rewrite HC, HR. Qed.

Lemma annotated_cons m face rest :
  annotated m (face :: rest) =
  annotated (Outlined m (expandedRect m face)) rest.
Proof. reflexivity. Qed.

Lemma annotated_dims (faces : list Rectangle) :
  forall m, Cols (annotated m faces) = Cols m /\ Rows (annotated m faces) = Rows m.
Proof.
  induction faces as [|face rest IH]; intros m; [now split|].
  rewrite annotated_cons. destruct (IH (Outlined m (expandedRect m face))) as [HC HR].
  now rewrite HC, HR.
Qed.

Lemma annotated_outlines (faces : list Rectangle) :
  forall m, outlines (annotated m faces) = outlines m ++ map (expandedRect m) faces.
Proof.
  induction faces as [|face rest IH]; intros m.
  - simpl. now rewrite app_nil_r.
  - rewrite annotated_cons, IH. cbn [outlines map].
    rewrite <- app_assoc. reflexivity.
Qed.

(* ================================================================== *)
(** ** The per-face files *)
(* ================================================================== *)

Lemma crop_files_length path_of (faces : list Rectangle) :
  forall m i, List.length (crop_files path_of m i faces) = List.length faces.
Proof.
  induction faces as [|face rest IH]; intros m i; simpl; [reflexivity|].
  now rewrite IH.
Qed.

Lemma crop_files_paths path_of (faces : list Rectangle) :
  forall m i,
    map fst (crop_files path_of m i faces) =
    map (fun k => path_of (i + Z.of_nat k)) (seq 1 (List.length faces)).
Proof.
  induction faces as [|face rest IH]; intros m i; [reflexivity|].
  cbn [crop_files List.length seq map fst]. f_equal.
  rewrite IH, <- (seq_shift (List.length rest) 1), map_map.
  apply map_ext. intros k. f_equal. lia.
Qed.

(** The file of the detection at position [k] (from 0): its index is
    [k+1], and it is cut out of the raster on which the outlines of the
    detections up to position [k] have been drawn. *)
Lemma crop_files_nth path_of (faces : list Rectangle) :
  forall m i k face,
    nth_error faces k = Some face ->
    nth_error (crop_files path_of m i faces) k =
    Some (path_of (i + Z.of_nat k + 1),
          let mk := annotated m (firstn (S k) faces) in
          Region mk (cropRect mk face)).
Proof.
  induction faces as [|f rest IH]; intros m i k face Hk.
  - destruct k; discriminate.
  - destruct k as [|k].
    + injection Hk as <-. simpl. do 3 f_equal. lia.
    + simpl in Hk. cbn [crop_files nth_error].
      rewrite (IH _ _ _ _ Hk). cbn zeta.
      change (firstn (S (S k)) (f :: rest)) with (f :: firstn (S k) rest).
      rewrite annotated_cons. do 3 f_equal. lia.
Qed.

Lemma crop_files_nth_inv path_of faces m i k p c :
  nth_error (crop_files path_of m i faces) k = Some (p, c) ->
  exists face, nth_error faces k = Some face /\
    p = path_of (i + Z.of_nat k + 1) /\
    c = Region (annotated m (firstn (S k) faces))
               (cropRect (annotated m (firstn (S k) faces)) face).
Proof.
  intros Hk.
  destruct (nth_error faces k) as [face|] eqn:Hf.
  - rewrite (crop_files_nth path_of faces m i k face Hf) in Hk.
    injection Hk as <- <-. now exists face.
  - apply nth_error_None in Hf.
    assert (nth_error (crop_files path_of m i faces) k = None) as HN
      by (apply nth_error_None; now rewrite crop_files_length).
    congruence.
Qed.

(* ================================================================== *)
(** ** Saving *)
(* ================================================================== *)

Lemma saveMatAsWebP_run (w : World) (mat : Mat) (path : string) (s : Sys) :
  saveMatAsWebP w mat path s =
  match save_outcome w (written s) path mat with
  | Some err => (Some err, s)
  | None => (None, add_files s [(path, mat)])
  end.
Proof.
  unfold saveMatAsWebP, saveAsWebP, save_outcome, writeFile, ret.
  destruct (ToImage w mat); [reflexivity|].
  destruct (Encode w mat); [reflexivity|].
  destruct (WriteFile w (written s) path mat); reflexivity.
Qed.

Lemma add_files_nil s : add_files s [] = s.
Proof. destruct s. unfold add_files. simpl. now rewrite app_nil_r. Qed.

Lemma add_files_app s fs fs' :
  add_files (add_files s fs) fs' = add_files s (fs ++ fs').
Proof. unfold add_files. simpl. now rewrite app_assoc. Qed.

(** The loop saves the per-face files in order, and stops at the first
    save that fails. *)
Lemma crop_loop_run (w : World) path_of (faces : list Rectangle) :
  forall i m s,
    crop_loop w path_of faces i m s =
    match first_failure w (written s) (crop_files path_of m i faces) with
    | None =>
        ((annotated m faces, None),
         add_files s (crop_files path_of m i faces))
    | Some (k, err) =>
        ((annotated m (firstn (S k) faces),
          Some ("error saving face image: " +++ err)),
         add_files s (firstn k (crop_files path_of m i faces)))
    end.
Proof.
  induction faces as [|face rest IH]; intros i m s.
  - simpl. unfold ret. now rewrite add_files_nil.
  - cbn [crop_loop crop_files first_failure]. cbn zeta. unfold bind.
    rewrite saveMatAsWebP_run.
    set (m' := Outlined m (expandedRect m face)).
    set (file := (path_of (i + 1), Region m' (cropRect m' face))).
    destruct (save_outcome w (written s) (fst file) (snd file)) as [err|] eqn:Hsave;
      cbn [fst snd file] in Hsave; rewrite Hsave.
    + unfold ret. cbn [firstn]. now rewrite add_files_nil.
    + rewrite IH. cbn [written add_files].
      destruct (first_failure w (written s ++ [file])
                  (crop_files path_of m' (i + 1) rest)) as [[k err]|].
      * rewrite add_files_app. reflexivity.
      * rewrite add_files_app. reflexivity.
Qed.

Lemma batch_loop_is_crop_loop w faces :
  forall i m outputDir base s,
    Batch.detectFace_loop w faces i m outputDir base s =
    crop_loop w (batch_face_path w outputDir base) faces i m s.
Proof.
  induction faces as [|face rest IH]; intros i m outputDir base s; [reflexivity|].
  cbn [Batch.detectFace_loop crop_loop]. cbn zeta.
  unfold bind, Batch.cropAndSaveFace, batch_face_path.
  destruct (saveMatAsWebP _ _ _ s) as [[err|] s']; [reflexivity|].
  apply IH.
Qed.

Lemma single_loop_is_crop_loop w faces :
  forall i m out s,
    Single.detectFace_loop w faces i m out s =
    crop_loop w single_face_path faces i m s.
Proof.
  induction faces as [|face rest IH]; intros i m out s; [reflexivity|].
  cbn [Single.detectFace_loop crop_loop]. cbn zeta.
  unfold bind, Single.cropAndSaveFace, single_face_path.
  destruct (saveMatAsWebP _ _ _ s) as [[err|] s']; [reflexivity|].
  apply IH.
Qed.

(* ================================================================== *)
(** ** [detectFace] in one piece *)
(* ================================================================== *)

Lemma batch_detectFace_run w imagePath outputImagePath outputDir maxWidth maxHeight s :
  Batch.detectFace w imagePath outputImagePath outputDir maxWidth maxHeight s =
  detect_outcome w (batch_face_path w outputDir (baseFilename imagePath))
    imagePath outputImagePath maxWidth maxHeight s.
Proof.
  unfold Batch.detectFace, detect_outcome.
  destruct (negb (Load w classifier_file)); [reflexivity|].
  destruct (IMRead_Empty w imagePath); [reflexivity|].
  cbn zeta.
  destruct (DetectMultiScale w _) as [|face rest] eqn:Hfaces; [reflexivity|].
  cbn [List.length Nat.eqb]. unfold bind.
  rewrite batch_loop_is_crop_loop, crop_loop_run.
  destruct (first_failure w (written s) _) as [[k err]|]; [reflexivity|].
  rewrite saveMatAsWebP_run. cbn [written add_files].
  destruct (save_outcome w _ outputImagePath _); [reflexivity|].
  unfold ret. now rewrite add_files_app.
Qed.

Lemma single_detectFace_run w imagePath outputImagePath maxWidth maxHeight s :
  Single.detectFace w imagePath outputImagePath maxWidth maxHeight s =
  detect_outcome w single_face_path
    imagePath outputImagePath maxWidth maxHeight s.
Proof.
  unfold Single.detectFace, detect_outcome.
  destruct (negb (Load w classifier_file)); [reflexivity|].
  destruct (IMRead_Empty w imagePath); [reflexivity|].
  cbn zeta.
  destruct (DetectMultiScale w _) as [|face rest] eqn:Hfaces; [reflexivity|].
  cbn [List.length Nat.eqb]. unfold bind.
  rewrite single_loop_is_crop_loop, crop_loop_run.
  destruct (first_failure w (written s) _) as [[k err]|]; [reflexivity|].
  rewrite saveMatAsWebP_run. cbn [written add_files].
  destruct (save_outcome w _ outputImagePath _); [reflexivity|].
  unfold ret. now rewrite add_files_app.
Qed.

(* ================================================================== *)
(** ** The first failing save *)
(* ================================================================== *)

Lemma first_failure_lt w (todo : Files) :
  forall fs k err,
    first_failure w fs todo = Some (k, err) -> (k < List.length todo)%nat.
Proof.
  induction todo as [|[p c] rest IH]; intros fs k err H; [discriminate|].
  cbn [first_failure] in H.
  destruct (save_outcome w fs p c).
  - injection H as <- _. simpl. lia.
  - destruct (first_failure w (fs ++ [(p, c)]) rest) as [[k' e']|] eqn:Hrest;
      [|discriminate].
    injection H as <- _. apply IH in Hrest. simpl. lia.
Qed.

Lemma saves_succeed_tail w fs p c rest :
  saves_succeed w fs ((p, c) :: rest) ->
  saves_succeed w (fs ++ [(p, c)]) rest.
Proof.
  intros H j p' c' Hj. specialize (H (S j) p' c' Hj).
  cbn [firstn] in H. now rewrite <- app_assoc.
Qed.

Lemma first_failure_none w (todo : Files) :
  forall fs, saves_succeed w fs todo -> first_failure w fs todo = None.
Proof.
  induction todo as [|[p c] rest IH]; intros fs H; [reflexivity|].
  cbn [first_failure].
  pose proof (H 0%nat p c eq_refl) as H0. cbn [firstn] in H0.
  rewrite app_nil_r in H0. rewrite H0.
  now rewrite (IH _ (saves_succeed_tail _ _ _ _ _ H)).
Qed.

Lemma saves_succeed_app_l w fs todo more :
  saves_succeed w fs (todo ++ more) -> saves_succeed w fs todo.
Proof.
  intros H j p c Hj.
  assert (j < List.length todo)%nat as Hlt
    by (apply nth_error_Some; congruence).
  specialize (H j p c). rewrite nth_error_app1 in H by assumption.
  specialize (H Hj). rewrite firstn_app in H.
  replace (j - List.length todo)%nat with 0%nat in H by lia.
  cbn [firstn] in H. now rewrite app_nil_r in H.
Qed.

Lemma saves_succeed_last w fs todo p c :
  saves_succeed w fs (todo ++ [(p, c)]) ->
  save_outcome w (fs ++ todo) p c = None.
Proof.
  intros H. specialize (H (List.length todo) p c).
  rewrite nth_error_app2, Nat.sub_diag in H by lia.
  specialize (H eq_refl).
  rewrite firstn_app, Nat.sub_diag, firstn_all in H.
  cbn [firstn] in H. now rewrite app_nil_r in H.
Qed.

(** The saves before position [k] succeed and the save at [k] fails. *)
Lemma first_failure_some w (todo : Files) :
  forall fs k p c err,
    saves_succeed w fs (firstn k todo) ->
    nth_error todo k = Some (p, c) ->
    save_outcome w (fs ++ firstn k todo) p c = Some err ->
    first_failure w fs todo = Some (k, err).
Proof.
  induction todo as [|[p0 c0] rest IH]; intros fs k p c err Hok Hk Hfail.
  - destruct k; discriminate.
  - cbn [first_failure]. destruct k as [|k].
    + injection Hk as <- <-. cbn [firstn] in Hfail.
      rewrite app_nil_r in Hfail. now rewrite Hfail.
    + cbn [firstn] in Hok, Hfail. cbn [nth_error] in Hk.
      pose proof (Hok 0%nat p0 c0 eq_refl) as H0. cbn [firstn] in H0.
      rewrite app_nil_r in H0. rewrite H0.
      rewrite (IH (fs ++ [(p0, c0)]) k p c err); trivial.
      * now apply saves_succeed_tail.
      * now rewrite <- app_assoc.
Qed.

Lemma detectFace_of_run v w imagePath outputImagePath maxWidth maxHeight s :
  detectFace_of v w imagePath outputImagePath maxWidth maxHeight s =
  detect_outcome w (face_path_of v w imagePath)
    imagePath outputImagePath maxWidth maxHeight s.
Proof.
  destruct v as [outputDir|]; cbn [detectFace_of face_path_of].
  - apply batch_detectFace_run.
  - apply single_detectFace_run.
Qed.

(* ================================================================== *)
(** ** The region expander: formula, bounds, degenerate detections *)
(* ================================================================== *)

(** Closed comparisons of integers, by evaluation. *)
Ltac by_evaluation := repeat split; vm_compute; congruence.

(** C1. For a detected rectangle [r] (well formed, its padded box meeting
    the raster) on a working raster of [W] columns and [H] rows, the
    rectangle drawn by [detectFace] and the rectangle cut out by
    [cropAndSaveFace] are both
    (max(0, left - w/2), max(0, top - h/2), min(W, right + w/2),
    min(H, bottom + h)), with w = right - left, h = bottom - top and
    integer division. *)
Theorem region_expander_formula (m : Mat) (r : Rectangle) :
  well_formed r -> coords_in_range r ->
  dims_ok (Cols m) (Rows m) -> meets_raster (Cols m) (Rows m) r ->
  expandedRect m r = spec_expand (Cols m) (Rows m) r /\
  cropRect m r = spec_expand (Cols m) (Rows m) r.
Proof.
  intros Hwf Hrange Hdims Hmeets.
  split; [|rewrite (cropRect_expandedRect m r)]; now apply expandedRect_spec.
Qed.

Lemma region_expander_formula_witness :
  expandedRect (Resized "teest.jpg" 1024 1024) face_a =
    mkRectangle (Pt 50 40) (Pt 250 340) /\
  cropRect (Resized "teest.jpg" 1024 1024) face_a =
    mkRectangle (Pt 50 40) (Pt 250 340).
Proof.
  apply (region_expander_formula (Resized "teest.jpg" 1024 1024) face_a);
    by_evaluation.
Defined.

(** The same at the border of the raster: the second scenario of the
    specification. *)
Example expander_at_the_corner :
  expandedRect (Resized "teest.jpg" 1024 1024) face_b =
  mkRectangle (Pt 0 0) (Pt 60 80).
Proof. reflexivity. Qed.

(** A box that is no detection on the raster, entirely to the right of and
    below a 5x5 picture: [image.Rect] exchanges the corners. *)
Example expander_outside_the_raster :
  expandedRect (Resized "teest.jpg" 5 5) (mkRectangle (Pt 20 20) (Pt 30 30)) =
  mkRectangle (Pt 5 5) (Pt 15 15).
Proof. reflexivity. Qed.

Lemma expandedRect_inside (m : Mat) (r : Rectangle) :
  dims_ok (Cols m) (Rows m) -> inside (Cols m) (Rows m) r ->
  expandedRect m r = spec_expand (Cols m) (Rows m) r.
Proof.
  intros Hdims Hin. apply expandedRect_spec; trivial.
  - eapply inside_well_formed; eassumption.
  - eapply inside_coords_in_range; eassumption.
  - now apply inside_meets_raster.
Qed.

(** C5. For a rectangle [r] inside the raster, the expanded rectangle
    contains [r], is well formed and lies within [0,W] x [0,H]; no
    coordinate is negative, and a side of [r] on an edge of the raster
    stays on that edge. *)
Theorem expanded_rectangle_within_bounds (m : Mat) (r : Rectangle) :
  dims_ok (Cols m) (Rows m) -> inside (Cols m) (Rows m) r ->
  contains (expandedRect m r) r /\
  inside (Cols m) (Rows m) (expandedRect m r) /\
  (left r = 0 -> left (expandedRect m r) = 0) /\
  (top r = 0 -> top (expandedRect m r) = 0) /\
  (right r = Cols m -> right (expandedRect m r) = Cols m) /\
  (bottom r = Rows m -> bottom (expandedRect m r) = Rows m).
Proof.
  intros Hdims Hin. rewrite (expandedRect_inside m r Hdims Hin).
  destruct Hdims as [HW HH].
  destruct Hin as (I1 & I2 & I3 & I4 & I5 & I6).
  pose proof (half_bounds (right r - left r)) as Hw.
  pose proof (half_bounds (bottom r - top r)) as Hh.
  unfold contains, inside, spec_expand.
  cbn [left right top bottom Min Max X Y].
  fold (left r) (right r) (top r) (bottom r).
  repeat split; lia.
Qed.

Lemma expanded_rectangle_within_bounds_witness :
  contains (expandedRect (Resized "teest.jpg" 1024 1024) face_b) face_b /\
  inside 1024 1024 (expandedRect (Resized "teest.jpg" 1024 1024) face_b) /\
  left (expandedRect (Resized "teest.jpg" 1024 1024) face_b) = 0 /\
  top (expandedRect (Resized "teest.jpg" 1024 1024) face_b) = 0.
Proof.
  destruct (expanded_rectangle_within_bounds
              (Resized "teest.jpg" 1024 1024) face_b)
    as (Hc & Hi & Hl & Ht & _); [by_evaluation | by_evaluation |].
  exact (conj Hc (conj Hi (conj (Hl eq_refl) (Ht eq_refl)))).
Defined.

(** C4, as the specification has it, fails: a detection without width but
    with a height lies inside the raster and is still padded above and
    below. *)
Lemma thin_detection_is_padded_vertically :
  inside 1024 1024 face_thin /\
  right face_thin - left face_thin = 0 /\
  expandedRect (Resized "teest.jpg" 1024 1024) face_thin =
    mkRectangle (Pt 10 5) (Pt 10 30) /\
  expandedRect (Resized "teest.jpg" 1024 1024) face_thin <> face_thin.
Proof.
  split; [by_evaluation|]. split; [reflexivity|]. split; [reflexivity|].
  intros H. discriminate H.
Qed.

(** C4, amended. For a detection inside the raster: without width it keeps
    its left and right sides; without height it keeps its top and bottom
    sides; without either the expanded rectangle is the raw rectangle.  No
    detection is rejected for its size: the loop of either program outlines
    the expanded rectangle and hands its region to the encoder. *)
Theorem degenerate_detection_expansion (m : Mat) (r : Rectangle) :
  dims_ok (Cols m) (Rows m) -> inside (Cols m) (Rows m) r ->
  (right r - left r = 0 ->
   left (expandedRect m r) = left r /\ right (expandedRect m r) = right r) /\
  (bottom r - top r = 0 ->
   top (expandedRect m r) = top r /\ bottom (expandedRect m r) = bottom r) /\
  (right r - left r = 0 -> bottom r - top r = 0 -> expandedRect m r = r) /\
  (forall w i s outputDir base outputImagePath,
     snd (fst (Batch.detectFace_loop w [r] i m outputDir base s)) =
       option_map (String.append "error saving face image: ")
         (save_outcome w (written s) (batch_face_path w outputDir base (i + 1))
            (Region (Outlined m (expandedRect m r)) (expandedRect m r))) /\
     snd (fst (Single.detectFace_loop w [r] i m outputImagePath s)) =
       option_map (String.append "error saving face image: ")
         (save_outcome w (written s) (single_face_path (i + 1))
            (Region (Outlined m (expandedRect m r)) (expandedRect m r)))).
Proof.
  intros Hdims Hin.
  assert (forall w path_of i s,
             snd (fst (crop_loop w path_of [r] i m s)) =
             option_map (String.append "error saving face image: ")
               (save_outcome w (written s) (path_of (i + 1))
                  (Region (Outlined m (expandedRect m r)) (expandedRect m r))))
    as Hloop.
  { intros w path_of i s.
    rewrite crop_loop_run. cbn [crop_files first_failure].
    rewrite (cropRect_expandedRect (Outlined m (expandedRect m r)) r).
    rewrite (expandedRect_dims m (Outlined m (expandedRect m r)) r)
      by reflexivity.
    destruct (save_outcome w (written s) (path_of (i + 1)) _); reflexivity. }
  split; [|split; [|split]].
  4: { intros w i s outputDir base outputImagePath. split.
       - rewrite batch_loop_is_crop_loop. apply Hloop.
       - rewrite single_loop_is_crop_loop. apply Hloop. }
  all: rewrite (expandedRect_inside m r Hdims Hin).
  all: destruct Hdims as [HW HH].
  all: destruct Hin as (I1 & I2 & I3 & I4 & I5 & I6).
  all: unfold spec_expand; cbn [left right top bottom Min Max X Y].
  all: fold (left r) (right r) (top r) (bottom r).
  - intros Hw. rewrite Hw. change (0 / 2) with 0. lia.
  - intros Hh. rewrite Hh. change (0 / 2) with 0. lia.
  - intros Hw Hh. rewrite Hw, Hh. change (0 / 2) with 0.
    destruct r as [[x0 y0] [x1 y1]].
    unfold left, right, top, bottom in *. cbn [Min Max X Y] in *.
    f_equal; f_equal; lia.
Qed.

Lemma degenerate_detection_expansion_witness :
  expandedRect (Resized "teest.jpg" 1024 1024) face_point = face_point /\
  left (expandedRect (Resized "teest.jpg" 1024 1024) face_thin) = 10 /\
  right (expandedRect (Resized "teest.jpg" 1024 1024) face_thin) = 10.
Proof.
  destruct (degenerate_detection_expansion
              (Resized "teest.jpg" 1024 1024) face_point)
    as (_ & _ & Hboth); [by_evaluation | by_evaluation |].
  destruct (degenerate_detection_expansion
              (Resized "teest.jpg" 1024 1024) face_thin)
    as (Hthin & _ & _); [by_evaluation | by_evaluation |].
  split; [exact (proj1 Hboth eq_refl eq_refl) | exact (Hthin eq_refl)].
Defined.

(* ================================================================== *)
(** ** The files of one picture *)
(* ================================================================== *)

Lemma firstn_snoc {A : Type} (l : list A) :
  forall k x, nth_error l k = Some x -> firstn (S k) l = firstn k l ++ [x].
Proof.
  induction l as [|a l IH]; intros k x Hk.
  - destruct k; discriminate.
  - destruct k as [|k].
    + injection Hk as <-. reflexivity.
    + cbn [nth_error] in Hk. rewrite firstn_cons, (IH k x Hk). reflexivity.
Qed.

Lemma annotated_snoc m faces face :
  annotated m (faces ++ [face]) =
  Outlined (annotated m faces) (expandedRect (annotated m faces) face).
Proof. unfold annotated. now rewrite fold_left_app. Qed.

Lemma app_same_head {A : Type} (l new : list A) : l = l ++ new -> new = [].
Proof.
  intros H. apply (app_inv_head l). now rewrite app_nil_r.
Qed.

(** Whatever the run does, the file it writes at position [j], for [j]
    below the number of detections, is the per-face file of the detection
    at position [j]. *)
Lemma detect_outcome_files w path_of imagePath outputImagePath maxWidth maxHeight s new :
  written (snd (detect_outcome w path_of imagePath outputImagePath
                  maxWidth maxHeight s)) = written s ++ new ->
  forall j p c,
    (j < List.length (detections w imagePath maxWidth maxHeight))%nat ->
    nth_error new j = Some (p, c) ->
    nth_error (crop_files path_of (working_raster imagePath maxWidth maxHeight)
                 0 (detections w imagePath maxWidth maxHeight)) j = Some (p, c).
Proof.
  unfold detect_outcome, detections, working_raster.
  set (m0 := Resized imagePath (int_of_uint maxWidth) (int_of_uint maxHeight)).
  intros Hnew j p c Hj Hnth.
  assert (new = [] -> False) as Hnonempty
    by (intros ->; destruct j; discriminate).
  destruct (negb (Load w classifier_file));
    [cbn [snd] in Hnew; now apply app_same_head in Hnew|].
  destruct (IMRead_Empty w imagePath);
    [cbn [snd] in Hnew; now apply app_same_head in Hnew|].
  cbn zeta in Hnew.
  destruct (DetectMultiScale w m0) as [|face rest] eqn:Hfaces;
    [cbn [snd] in Hnew; now apply app_same_head in Hnew|].
  set (crops := crop_files path_of m0 0 (face :: rest)) in *.
  assert (List.length crops = List.length (face :: rest)) as Hlen
    by apply crop_files_length.
  destruct (first_failure w (written s) crops) as [[k err]|] eqn:Hff.
  - cbn [snd add_files written] in Hnew. apply app_inv_head in Hnew. subst new.
    rewrite nth_error_firstn in Hnth.
    destruct (j <? k)%nat; [assumption | discriminate].
  - destruct (save_outcome w (written s ++ crops) outputImagePath _);
      cbn [snd add_files written] in Hnew; apply app_inv_head in Hnew; subst new.
    + assumption.
    + rewrite nth_error_app1 in Hnth by lia. assumption.
Qed.

(** C6. For every detection, the rectangle drawn on the working raster
    and the rectangle cut out for its per-face file are computed by the
    same formula over the same raster bounds, and are equal: the per-face
    file of the detection at position [j] is the region [drawn] of the
    raster on which [drawn] has just been outlined. *)
Theorem drawn_and_cropped_rectangles_agree
    v w imagePath outputImagePath maxWidth maxHeight s new j p c :
  written (snd (detectFace_of v w imagePath outputImagePath
                  maxWidth maxHeight s)) = written s ++ new ->
  (j < List.length (detections w imagePath maxWidth maxHeight))%nat ->
  nth_error new j = Some (p, c) ->
  exists face before drawn,
    nth_error (detections w imagePath maxWidth maxHeight) j = Some face /\
    before = annotated (working_raster imagePath maxWidth maxHeight)
               (firstn j (detections w imagePath maxWidth maxHeight)) /\
    drawn = expandedRect before face /\
    c = Region (Outlined before drawn)
          (cropRect (Outlined before drawn) face) /\
    cropRect (Outlined before drawn) face = drawn /\
    Cols (Outlined before drawn) = Cols before /\
    Rows (Outlined before drawn) = Rows before.
Proof.
  intros Hnew Hj Hnth. rewrite detectFace_of_run in Hnew.
  pose proof (detect_outcome_files _ _ _ _ _ _ _ _ Hnew j p c Hj Hnth) as Hcrop.
  apply crop_files_nth_inv in Hcrop.
  destruct Hcrop as (face & Hface & _ & Hc).
  set (before := annotated (working_raster imagePath maxWidth maxHeight)
                   (firstn j (detections w imagePath maxWidth maxHeight))).
  exists face, before, (expandedRect before face).
  rewrite (firstn_snoc _ _ _ Hface), annotated_snoc in Hc.
  fold before in Hc.
  repeat split; trivial.
Qed.

(** C7. The per-face file of the detection at position [j] (from 0) is cut
    out of the working raster that carries the outlines of the detections
    at positions 0..j, in this order, and no other: its own and the earlier
    ones, none of the later ones. *)
Theorem crop_carries_outlines_up_to_its_own
    v w imagePath outputImagePath maxWidth maxHeight s new j p c :
  written (snd (detectFace_of v w imagePath outputImagePath
                  maxWidth maxHeight s)) = written s ++ new ->
  (j < List.length (detections w imagePath maxWidth maxHeight))%nat ->
  nth_error new j = Some (p, c) ->
  exists face mj,
    nth_error (detections w imagePath maxWidth maxHeight) j = Some face /\
    mj = annotated (working_raster imagePath maxWidth maxHeight)
           (firstn (S j) (detections w imagePath maxWidth maxHeight)) /\
    c = Region mj (cropRect mj face) /\
    outlines mj =
      map (expandedRect (working_raster imagePath maxWidth maxHeight))
        (firstn (S j) (detections w imagePath maxWidth maxHeight)) /\
    List.length (outlines mj) = S j /\
    nth_error (outlines mj) j =
      Some (expandedRect (working_raster imagePath maxWidth maxHeight) face).
Proof.
  intros Hnew Hj Hnth. rewrite detectFace_of_run in Hnew.
  pose proof (detect_outcome_files _ _ _ _ _ _ _ _ Hnew j p c Hj Hnth) as Hcrop.
  apply crop_files_nth_inv in Hcrop.
  destruct Hcrop as (face & Hface & _ & Hc).
  eexists face, _. split; [exact Hface|]. split; [reflexivity|].
  split; [exact Hc|].
  rewrite annotated_outlines. cbn [outlines working_raster app].
  split; [reflexivity|]. split.
  - rewrite length_map, length_firstn. lia.
  - rewrite nth_error_map, nth_error_firstn.
    replace (j <? S j)%nat with true by (symmetry; apply Nat.ltb_lt; lia).
    now rewrite Hface.
Qed.

Lemma drawn_and_cropped_rectangles_agree_witness :
  exists face before drawn,
    nth_error [face_a; face_b] 1 = Some face /\
    before = annotated (Resized "input_images/a.jpg" 1024 1024) [face_a] /\
    drawn = expandedRect before face /\
    Region (Outlined (Outlined (Resized "input_images/a.jpg" 1024 1024)
                        (mkRectangle (Pt 50 40) (Pt 250 340)))
              (mkRectangle (Pt 0 0) (Pt 60 80)))
      (mkRectangle (Pt 0 0) (Pt 60 80)) =
    Region (Outlined before drawn) (cropRect (Outlined before drawn) face) /\
    cropRect (Outlined before drawn) face = drawn /\
    Cols (Outlined before drawn) = Cols before /\
    Rows (Outlined before drawn) = Rows before.
Proof.
  refine (drawn_and_cropped_rectangles_agree
            (BatchVariant "output_images") (world_with [face_a; face_b])
            "input_images/a.jpg" "output_images/output_a.jpg.webp" 1024 1024
            start
            (written (snd (Batch.detectFace (world_with [face_a; face_b])
               "input_images/a.jpg" "output_images/output_a.jpg.webp"
               "output_images" 1024 1024 start)))
            1 "output_images/a_face_2.webp" _ _ _ _);
    [reflexivity | vm_compute; lia | reflexivity].
Defined.

Lemma crop_carries_outlines_up_to_its_own_witness :
  exists face mj,
    nth_error [face_a; face_b; face_thin] 1 = Some face /\
    mj = annotated (Resized "teest.jpg" 1024 1024) [face_a; face_b] /\
    Region (Outlined (Outlined (Resized "teest.jpg" 1024 1024)
                        (mkRectangle (Pt 50 40) (Pt 250 340)))
              (mkRectangle (Pt 0 0) (Pt 60 80)))
      (mkRectangle (Pt 0 0) (Pt 60 80)) =
    Region mj (cropRect mj face) /\
    outlines mj =
      map (expandedRect (Resized "teest.jpg" 1024 1024)) [face_a; face_b] /\
    List.length (outlines mj) = 2%nat /\
    nth_error (outlines mj) 1 =
      Some (expandedRect (Resized "teest.jpg" 1024 1024) face).
Proof.
  refine (crop_carries_outlines_up_to_its_own
            SingleVariant (world_with [face_a; face_b; face_thin])
            "teest.jpg" "output.webp" 1024 1024 start
            (written (snd (Single.detectFace
               (world_with [face_a; face_b; face_thin])
               "teest.jpg" "output.webp" 1024 1024 start)))
            1 "face_2.webp" _ _ _ _);
    [reflexivity | vm_compute; lia | reflexivity].
Defined.

(* ================================================================== *)
(** ** File names *)
(* ================================================================== *)

Lemma length_append (s t : string) :
  String.length (s +++ t) = (String.length s + String.length t)%nat.
Proof. induction s as [|a s IH]; simpl; [reflexivity | now rewrite IH]. Qed.

Lemma append_inj_l (s t1 t2 : string) : s +++ t1 = s +++ t2 -> t1 = t2.
Proof.
  induction s as [|a s IH]; simpl; intros H; [assumption|].
  injection H as H. now apply IH.
Qed.

Lemma append_inj_r (t : string) :
  forall s1 s2, s1 +++ t = s2 +++ t -> s1 = s2.
Proof.
  induction s1 as [|a s1 IH]; intros [|b s2] H.
  - reflexivity.
  - apply (f_equal String.length) in H. simpl in H.
    rewrite length_append in H. lia.
  - apply (f_equal String.length) in H. simpl in H.
    rewrite length_append in H. lia.
  - simpl in H. injection H as -> H. f_equal. now apply IH.
Qed.

Lemma to_int_not_nil (z : Z) :
  Z.to_int z <> Decimal.Pos Decimal.Nil /\ Z.to_int z <> Decimal.Neg Decimal.Nil.
Proof.
  destruct z as [|q|q]; simpl; split; try discriminate;
    intros H; injection H as H; now apply DecimalPos.Unsigned.to_uint_nonnil in H.
Qed.

Lemma itoa_inj (a b : Z) : itoa a = itoa b -> a = b.
Proof.
  unfold itoa. intros H. apply DecimalZ.to_int_inj.
  destruct (to_int_not_nil a) as [Ha1 Ha2].
  destruct (to_int_not_nil b) as [Hb1 Hb2].
  pose proof (NilZero.isi (Z.to_int a) Ha1 Ha2) as Ia.
  pose proof (NilZero.isi (Z.to_int b) Hb1 Hb2) as Ib.
  rewrite H in Ia. congruence.
Qed.

Lemma spec_face_name_inj base (a b : Z) :
  spec_face_name base a = spec_face_name base b -> a = b.
Proof.
  unfold spec_face_name. intros H.
  apply append_inj_l, append_inj_l in H.
  apply append_inj_r in H. now apply itoa_inj.
Qed.

Lemma single_face_path_inj (a b : Z) :
  single_face_path a = single_face_path b -> a = b.
Proof.
  unfold single_face_path. intros H.
  apply append_inj_l, append_inj_r in H. now apply itoa_inj.
Qed.

Lemma NoDup_map_injective {A B : Type} (f : A -> B) (l : list A) :
  (forall a b, f a = f b -> a = b) -> NoDup l -> NoDup (map f l).
Proof.
  intros Hinj. induction 1 as [|x l Hx Hl IH]; cbn [map]; constructor; trivial.
  rewrite in_map_iff. intros (y & Hy & Hin). apply Hinj in Hy. now subst.
Qed.

Lemma indexed_names_NoDup (name : Z -> string) (n : nat) :
  (forall a b, name a = name b -> a = b) ->
  NoDup (map (fun k => name (Z.of_nat k)) (seq 1 n)).
Proof.
  intros Hinj. apply NoDup_map_injective; [|apply seq_NoDup].
  intros a b H. apply Hinj in H. lia.
Qed.

(** A name of the form [<base>_face_<i>.webp] is longer than
    ["face_1.webp"]. *)
Lemma spec_face_name_long base (i : Z) :
  (12 <= String.length (spec_face_name base i))%nat.
Proof.
  unfold spec_face_name. rewrite !length_append.
  assert (1 <= String.length (itoa i))%nat.
  { unfold itoa. destruct (Z.to_int i) as [d|d] eqn:Hd.
    - destruct d; simpl; try lia.
    - simpl. lia. }
  simpl. lia.
Qed.

(* ================================================================== *)
(** ** One picture: the files written *)
(* ================================================================== *)

Lemma In_firstn {A : Type} (l : list A) :
  forall k x, In x (firstn k l) -> In x l.
Proof.
  induction l as [|a l IH]; intros [|k] x Hin; cbn [firstn] in Hin;
    try contradiction.
  destruct Hin as [->|Hin]; [now left | right; eauto].
Qed.

Lemma annotated_not_region (faces : list Rectangle) :
  forall m, is_region m = false -> is_region (annotated m faces) = false.
Proof.
  induction faces as [|face rest IH]; intros m Hm; [exact Hm|].
  rewrite annotated_cons. now apply IH.
Qed.

Lemma crop_files_are_regions path_of faces m i p c :
  In (p, c) (crop_files path_of m i faces) -> is_region c = true.
Proof.
  intros Hin. apply In_nth_error in Hin. destruct Hin as [k Hk].
  apply crop_files_nth_inv in Hk. destruct Hk as (face & _ & _ & ->).
  reflexivity.
Qed.

(** C3, as the specification has it, fails in the single-image program:
    with two detections and every write succeeding, the per-face files are
    [face_1.webp] and [face_2.webp]; no file carries the base name of the
    input, whatever it is taken to be. *)
Lemma single_variant_face_names_lack_base :
  fst (Single.detectFace (world_with [face_a; face_b])
         "teest.jpg" "output.webp" 1024 1024 start) = (true, None) /\
  detections (world_with [face_a; face_b]) "teest.jpg" 1024 1024 =
    [face_a; face_b] /\
  map fst (written (snd (Single.detectFace (world_with [face_a; face_b])
                           "teest.jpg" "output.webp" 1024 1024 start))) =
    ["face_1.webp"; "face_2.webp"; "output.webp"] /\
  spec_face_name (baseFilename "teest.jpg") 1 = "teest_face_1.webp" /\
  forall base i,
    ~ In (spec_face_name base i)
        (map fst (written (snd (Single.detectFace (world_with [face_a; face_b])
                                  "teest.jpg" "output.webp" 1024 1024 start)))).
Proof.
  split; [reflexivity|]. split; [reflexivity|]. split; [reflexivity|].
  split; [reflexivity|].
  intros base i Hin.
  pose proof (spec_face_name_long base i) as Hlen.
  change (In (spec_face_name base i)
            ["face_1.webp"; "face_2.webp"; "output.webp"]) in Hin.
  destruct Hin as [H|[H|[H|[]]]]; rewrite <- H in Hlen; simpl in Hlen; lia.
Qed.

(** C3, amended. For a picture with N >= 1 detections on which every write
    succeeds, [detectFace] succeeds and writes exactly N per-face files, one
    per detection and in the order of the detector, and then the annotated
    raster.  The file of the detection at position k (from 1) goes to
    [<outputDir>/<baseFilename>_face_<k>.webp] in the batch program and to
    [face_<k>.webp], without the base name, in the single-image program; in
    both the N names are pairwise distinct. *)
Theorem per_face_files_indexed_in_detector_order
    v w imagePath outputImagePath maxWidth maxHeight s :
  Load w classifier_file = true ->
  IMRead_Empty w imagePath = false ->
  (1 <= List.length (detections w imagePath maxWidth maxHeight))%nat ->
  saves_succeed w (written s)
    (face_files v w imagePath maxWidth maxHeight
       ++ [(outputImagePath, annotated_output w imagePath maxWidth maxHeight)]) ->
  detectFace_of v w imagePath outputImagePath maxWidth maxHeight s =
    ((true, None),
     add_files s
       (face_files v w imagePath maxWidth maxHeight
          ++ [(outputImagePath,
               annotated_output w imagePath maxWidth maxHeight)])) /\
  List.length (face_files v w imagePath maxWidth maxHeight) =
    List.length (detections w imagePath maxWidth maxHeight) /\
  map fst (face_files v w imagePath maxWidth maxHeight) =
    map (fun k => face_path_of v w imagePath (Z.of_nat k))
      (seq 1 (List.length (detections w imagePath maxWidth maxHeight))) /\
  (forall k face,
      nth_error (detections w imagePath maxWidth maxHeight) k = Some face ->
      exists mk,
        nth_error (face_files v w imagePath maxWidth maxHeight) k =
        Some (face_path_of v w imagePath (Z.of_nat k + 1),
              Region mk (cropRect mk face))) /\
  (forall outputDir i,
      face_path_of (BatchVariant outputDir) w imagePath i =
      Join w outputDir (spec_face_name (baseFilename imagePath) i)) /\
  (forall i,
      face_path_of SingleVariant w imagePath i =
      "face_" +++ itoa i +++ ".webp") /\
  NoDup (map (fun k => spec_face_name (baseFilename imagePath) (Z.of_nat k))
           (seq 1 (List.length (detections w imagePath maxWidth maxHeight)))) /\
  NoDup (map (fun k => "face_" +++ itoa (Z.of_nat k) +++ ".webp")
           (seq 1 (List.length (detections w imagePath maxWidth maxHeight)))).
Proof.
  intros HLoad HRead HN Hsaves.
  split; [|split; [|split; [|split; [|split; [|split; [|split]]]]]].
  - rewrite detectFace_of_run. unfold detect_outcome.
    rewrite HLoad, HRead. cbn [negb]. cbn zeta.
    fold (working_raster imagePath maxWidth maxHeight).
    fold (detections w imagePath maxWidth maxHeight).
    unfold face_files, annotated_output in *.
    destruct (detections w imagePath maxWidth maxHeight) as [|face rest] eqn:Hd;
      [simpl in HN; lia|].
    rewrite (first_failure_none _ _ _ (saves_succeed_app_l _ _ _ _ Hsaves)).
    now rewrite (saves_succeed_last _ _ _ _ _ Hsaves).
  - apply crop_files_length.
  - unfold face_files. rewrite crop_files_paths.
    apply map_ext. intros k. f_equal.
  - intros k face Hk. eexists. unfold face_files.
    rewrite (crop_files_nth _ _ _ _ _ _ Hk). reflexivity.
  - reflexivity.
  - reflexivity.
  - apply indexed_names_NoDup. apply spec_face_name_inj.
  - apply (indexed_names_NoDup single_face_path). apply single_face_path_inj.
Qed.

Lemma saves_succeed_everywhere (faces : list Rectangle) fs todo :
  saves_succeed (world_with faces) fs todo.
Proof. intros j path mat _. reflexivity. Defined.

Lemma per_face_files_indexed_in_detector_order_witness :
  Batch.detectFace (world_with [face_a; face_b]) "input_images/a.jpg"
    "output_images/output_a.jpg.webp" "output_images" 1024 1024 start =
  ((true, None),
   mkSys
     [("output_images/a_face_1.webp",
       Region (annotated (Resized "input_images/a.jpg" 1024 1024) [face_a])
         (mkRectangle (Pt 50 40) (Pt 250 340)));
      ("output_images/a_face_2.webp",
       Region (annotated (Resized "input_images/a.jpg" 1024 1024)
                 [face_a; face_b])
         (mkRectangle (Pt 0 0) (Pt 60 80)));
      ("output_images/output_a.jpg.webp",
       annotated (Resized "input_images/a.jpg" 1024 1024) [face_a; face_b])]
     [] []).
Proof.
  exact (proj1 (per_face_files_indexed_in_detector_order
                  (BatchVariant "output_images") (world_with [face_a; face_b])
                  "input_images/a.jpg" "output_images/output_a.jpg.webp"
                  1024 1024 start eq_refl eq_refl (le_S 1 1 (le_n 1))
                  (saves_succeed_everywhere _ _ _))).
Defined.

(** C10. Output is not atomic.  When the saves of the per-face files before
    position [k] (from 0) succeed and the save at position [k] fails,
    [detectFace] stops with an error: the [k] earlier per-face files stay
    written, neither the file at position [k] nor a later one is written,
    and the annotated raster is never written. *)
Theorem failed_face_save_stops_the_picture
    v w imagePath outputImagePath maxWidth maxHeight s k path mat err :
  Load w classifier_file = true ->
  IMRead_Empty w imagePath = false ->
  saves_succeed w (written s)
    (firstn k (face_files v w imagePath maxWidth maxHeight)) ->
  nth_error (face_files v w imagePath maxWidth maxHeight) k = Some (path, mat) ->
  save_outcome w
    (written s ++ firstn k (face_files v w imagePath maxWidth maxHeight))
    path mat = Some err ->
  detectFace_of v w imagePath outputImagePath maxWidth maxHeight s =
    ((false, Some ("error saving face image: " +++ err)),
     add_files s (firstn k (face_files v w imagePath maxWidth maxHeight))) /\
  (k < List.length (detections w imagePath maxWidth maxHeight))%nat /\
  List.length (firstn k (face_files v w imagePath maxWidth maxHeight)) = k /\
  (forall p, ~ In (p, annotated_output w imagePath maxWidth maxHeight)
                 (firstn k (face_files v w imagePath maxWidth maxHeight))).
Proof.
  intros HLoad HRead Hok Hk Hfail.
  assert (k < List.length (detections w imagePath maxWidth maxHeight))%nat as Hlt.
  { unfold face_files in Hk.
    rewrite <- (crop_files_length (face_path_of v w imagePath)
                  (detections w imagePath maxWidth maxHeight)
                  (working_raster imagePath maxWidth maxHeight) 0).
    apply nth_error_Some. congruence. }
  split; [|split; [exact Hlt|split]].
  - rewrite detectFace_of_run. unfold detect_outcome.
    rewrite HLoad, HRead. cbn [negb]. cbn zeta.
    fold (working_raster imagePath maxWidth maxHeight).
    fold (detections w imagePath maxWidth maxHeight).
    unfold face_files in *.
    destruct (detections w imagePath maxWidth maxHeight) as [|face rest] eqn:Hd;
      [simpl in Hlt; lia|].
    now rewrite (first_failure_some _ _ _ _ _ _ _ Hok Hk Hfail).
  - rewrite length_firstn. unfold face_files. rewrite crop_files_length. lia.
  - intros p Hin. apply In_firstn in Hin.
    apply crop_files_are_regions in Hin.
    unfold annotated_output in Hin.
    rewrite annotated_not_region in Hin by reflexivity. discriminate.
Qed.

Lemma failed_face_save_stops_the_picture_witness :
  Batch.detectFace world_disk_full "input_images/a.jpg"
    "output_images/output_a.jpg.webp" "output_images" 1024 1024 start =
  ((false, Some "error saving face image: no space left on device"),
   mkSys
     [("output_images/a_face_1.webp",
       Region (annotated (Resized "input_images/a.jpg" 1024 1024) [face_a])
         (mkRectangle (Pt 50 40) (Pt 250 340)))]
     [] []).
Proof.
  refine (proj1 (failed_face_save_stops_the_picture
                   (BatchVariant "output_images") world_disk_full
                   "input_images/a.jpg" "output_images/output_a.jpg.webp"
                   1024 1024 start 1 "output_images/a_face_2.webp"
                   (Region (annotated (Resized "input_images/a.jpg" 1024 1024)
                              [face_a; face_b])
                      (mkRectangle (Pt 0 0) (Pt 60 80)))
                   "no space left on device" eq_refl eq_refl _ eq_refl eq_refl)).
  intros j path mat Hj. destruct j as [|j].
  - injection Hj as <- <-. reflexivity.
  - destruct j; discriminate Hj.
Defined.

(* ================================================================== *)
(** ** No detection *)
(* ================================================================== *)

Lemma detect_outcome_no_face w path_of imagePath outputImagePath maxWidth maxHeight s :
  Load w classifier_file = true ->
  IMRead_Empty w imagePath = false ->
  detections w imagePath maxWidth maxHeight = [] ->
  detect_outcome w path_of imagePath outputImagePath maxWidth maxHeight s =
  ((false, None), s).
Proof.
  intros HLoad HRead Hnone. unfold detect_outcome.
  rewrite HLoad, HRead. cbn [negb]. cbn zeta.
  fold (working_raster imagePath maxWidth maxHeight).
  fold (detections w imagePath maxWidth maxHeight).
  now rewrite Hnone.
Qed.

(** C8. When the detector returns no detection for a picture, [detectFace]
    (in both programs) writes neither a per-face file nor the annotated
    raster and reports no face and no error; the batch driver prints only
    its progress line; the single-image driver prints the log record with
    [has_face = false] and completes without error. *)
Theorem no_detection_no_output w imagePath maxWidth maxHeight :
  Load w classifier_file = true ->
  IMRead_Empty w imagePath = false ->
  detections w imagePath maxWidth maxHeight = [] ->
  (forall v outputImagePath s,
      detectFace_of v w imagePath outputImagePath maxWidth maxHeight s =
      ((false, None), s)) /\
  (forall file inputDir outputDir s,
      IsDir file = false ->
      Join w inputDir (Name file) = imagePath ->
      Batch.processImages_loop w [file] inputDir outputDir
        maxWidth maxHeight s =
      (tt, add_stdout s [processing_line imagePath])) /\
  (forall outputPath s,
      Single.processImage w imagePath outputPath maxWidth maxHeight s =
      (None,
       add_stdout s
         ["Face detection log:" +++ nl
            +++ MarshalIndent w (mkLogData imagePath outputPath false) +++ nl;
          "Image successfully processed and saved to: " +++ outputPath +++ nl])) /\
  (forall s,
      imagePath = "teest.jpg" -> maxWidth = 1024 -> maxHeight = 1024 ->
      fst (Single.main w s) = 0 /\
      written (snd (Single.main w s)) = written s /\
      stderr (snd (Single.main w s)) = stderr s).
Proof.
  intros HLoad HRead Hnone.
  assert (forall v outputImagePath s,
             detectFace_of v w imagePath outputImagePath maxWidth maxHeight s =
             ((false, None), s)) as Hdetect.
  { intros v out s. rewrite detectFace_of_run.
    now apply detect_outcome_no_face. }
  assert (forall outputPath s,
      Single.processImage w imagePath outputPath maxWidth maxHeight s =
      (None,
       add_stdout s
         ["Face detection log:" +++ nl
            +++ MarshalIndent w (mkLogData imagePath outputPath false) +++ nl;
          "Image successfully processed and saved to: " +++ outputPath +++ nl]))
    as Hsingle.
  { intros out s. unfold Single.processImage, bind.
    rewrite (Hdetect SingleVariant out s : Single.detectFace _ _ _ _ _ _ = _).
    unfold Printf, ret, add_stdout. cbn [written stdout stderr].
    now rewrite <- app_assoc. }
  split; [exact Hdetect|]. split; [|split; [exact Hsingle|]].
  - intros file inputDir outputDir s Hfile Hpath.
    cbn [Batch.processImages_loop]. rewrite Hfile, Hpath. unfold bind.
    cbn [Printf].
    rewrite (Hdetect (BatchVariant outputDir) _ _
             : Batch.detectFace _ _ _ _ _ _ _ = _).
    reflexivity.
  - intros s -> -> ->. unfold Single.main, bind.
    rewrite Hsingle. cbn [fst snd add_stdout written stderr ret].
    repeat split.
Qed.

Lemma no_detection_no_output_witness :
  Batch.detectFace (world_with []) "input_images/a.jpg"
    "output_images/output_a.jpg.webp" "output_images" 1024 1024 start =
    ((false, None), start) /\
  Single.main (world_with []) start =
    (0,
     mkSys []
       ["Face detection log:" +++ nl
          +++ "{has_face: false, input_path: teest.jpg, output_path: output.webp}"
          +++ nl;
        "Image successfully processed and saved to: output.webp" +++ nl]
       []).
Proof.
  split.
  - exact (proj1 (no_detection_no_output (world_with []) "input_images/a.jpg"
                    1024 1024 eq_refl eq_refl eq_refl)
             (BatchVariant "output_images") "output_images/output_a.jpg.webp"
             start).
  - unfold Single.main, bind.
    rewrite (proj1 (proj2 (proj2 (no_detection_no_output (world_with [])
                                     "teest.jpg" 1024 1024
                                     eq_refl eq_refl eq_refl)))
               "output.webp" start).
    reflexivity.
Defined.

(* ================================================================== *)
(** ** The drivers *)
(* ================================================================== *)

Lemma detect_outcome_streams w path_of imagePath outputImagePath maxWidth maxHeight s :
  stdout (snd (detect_outcome w path_of imagePath outputImagePath
                 maxWidth maxHeight s)) = stdout s /\
  stderr (snd (detect_outcome w path_of imagePath outputImagePath
                 maxWidth maxHeight s)) = stderr s.
Proof.
  unfold detect_outcome.
  destruct (negb (Load w classifier_file)); [now split|].
  destruct (IMRead_Empty w imagePath); [now split|].
  cbn zeta. destruct (DetectMultiScale w _) as [|face rest]; [now split|].
  destruct (first_failure w (written s) _) as [[k err]|]; [now split|].
  destruct (save_outcome w _ outputImagePath _); now split.
Qed.

Lemma detect_outcome_no_classifier w path_of imagePath outputImagePath maxWidth maxHeight s :
  Load w classifier_file = false ->
  detect_outcome w path_of imagePath outputImagePath maxWidth maxHeight s =
  ((false, Some "error loading Haar cascade file"), s).
Proof. intros HLoad. unfold detect_outcome. now rewrite HLoad. Qed.

(** One turn of the loop of [processImages], for an entry that is not a
    directory. *)
Lemma processImages_loop_file w file rest inputDir outputDir maxWidth maxHeight s :
  IsDir file = false ->
  Batch.processImages_loop w (file :: rest) inputDir outputDir
    maxWidth maxHeight s =
  let inputPath := Join w inputDir (Name file) in
  let outputImagePath := Join w outputDir ("output_" +++ Name file +++ ".webp") in
  let r := Batch.detectFace w inputPath outputImagePath outputDir
             maxWidth maxHeight (add_stdout s [processing_line inputPath]) in
  Batch.processImages_loop w rest inputDir outputDir maxWidth maxHeight
    (match snd (fst r) with
     | Some err => add_stdout (snd r) [error_line inputPath err]
     | None => snd r
     end).
Proof.
  intros Hfile. cbn [Batch.processImages_loop]. rewrite Hfile.
  cbn zeta. unfold bind. cbn [Printf].
  fold (processing_line (Join w inputDir (Name file))).
  fold (add_stdout s [processing_line (Join w inputDir (Name file))]).
  destruct (Batch.detectFace w _ _ outputDir maxWidth maxHeight _)
    as [[hasFace [err|]] s']; reflexivity.
Qed.

Lemma processImages_loop_dir w file rest inputDir outputDir maxWidth maxHeight s :
  IsDir file = true ->
  Batch.processImages_loop w (file :: rest) inputDir outputDir
    maxWidth maxHeight s =
  Batch.processImages_loop w rest inputDir outputDir maxWidth maxHeight s.
Proof. intros Hdir. cbn [Batch.processImages_loop]. now rewrite Hdir. Qed.

Lemma processImages_loop_app w before :
  forall after inputDir outputDir maxWidth maxHeight s,
    Batch.processImages_loop w (before ++ after) inputDir outputDir
      maxWidth maxHeight s =
    Batch.processImages_loop w after inputDir outputDir maxWidth maxHeight
      (snd (Batch.processImages_loop w before inputDir outputDir
              maxWidth maxHeight s)).
Proof.
  induction before as [|file rest IH]; intros after inputDir outputDir mw mh s;
    [reflexivity|].
  rewrite <- app_comm_cons. destruct (IsDir file) eqn:Hfile.
  - rewrite !processImages_loop_dir by assumption. apply IH.
  - rewrite !processImages_loop_file by assumption. cbn zeta. apply IH.
Qed.

(** The loop only adds lines to the standard output and leaves the error
    stream alone. *)
Lemma processImages_loop_streams w files :
  forall inputDir outputDir maxWidth maxHeight s,
    (exists lines,
        stdout (snd (Batch.processImages_loop w files inputDir outputDir
                       maxWidth maxHeight s)) = stdout s ++ lines) /\
    stderr (snd (Batch.processImages_loop w files inputDir outputDir
                   maxWidth maxHeight s)) = stderr s.
Proof.
  induction files as [|file rest IH]; intros inputDir outputDir mw mh s.
  - split; [exists []; cbn; now rewrite app_nil_r | reflexivity].
  - destruct (IsDir file) eqn:Hfile.
    + rewrite processImages_loop_dir by assumption. apply IH.
    + rewrite processImages_loop_file by assumption. cbn zeta.
      rewrite batch_detectFace_run.
      set (inputPath := Join w inputDir (Name file)).
      set (r := detect_outcome w _ inputPath _ mw mh _).
      destruct (detect_outcome_streams w
                  (batch_face_path w outputDir (baseFilename inputPath))
                  inputPath
                  (Join w outputDir ("output_" +++ Name file +++ ".webp"))
                  mw mh (add_stdout s [processing_line inputPath]))
        as [Hout Herr].
      fold r in Hout, Herr. cbn [add_stdout stdout stderr] in Hout, Herr.
      destruct (snd (fst r)) as [err|].
      * destruct (IH inputDir outputDir mw mh
                    (add_stdout (snd r) [error_line inputPath err]))
          as [[lines Hlines] Hstderr].
        rewrite Hlines, Hstderr. cbn [add_stdout stdout stderr].
        rewrite Hout, Herr. split; [|reflexivity].
        eexists. rewrite <- !app_assoc. reflexivity.
      * destruct (IH inputDir outputDir mw mh (snd r))
          as [[lines Hlines] Hstderr].
        rewrite Hlines, Hstderr, Hout, Herr. split; [|reflexivity].
        eexists. rewrite <- !app_assoc. reflexivity.
Qed.

Lemma processImages_loop_keeps_lines w files inputDir outputDir maxWidth maxHeight s line :
  In line (stdout s) ->
  In line (stdout (snd (Batch.processImages_loop w files inputDir outputDir
                          maxWidth maxHeight s))).
Proof.
  intros Hin.
  destruct (processImages_loop_streams w files inputDir outputDir
              maxWidth maxHeight s) as [[lines Hlines] _].
  rewrite Hlines. apply in_or_app. now left.
Qed.

Lemma batch_main_run w s files :
  MkdirAll w "output_images" = None ->
  ReadDir w "input_images" = (files, None) ->
  Batch.main w s =
  (0, snd (Batch.processImages_loop w files "input_images" "output_images"
             1024 1024 s)).
Proof.
  intros Hmk Hdir. unfold Batch.main, Batch.processImages.
  rewrite Hmk. cbn zeta. unfold bind. rewrite Hdir. unfold bind.
  destruct (Batch.processImages_loop w files _ _ _ _ s) as [[] s'].
  reflexivity.
Qed.

(** C9. In the batch program, once the output directory exists and the
    input directory has been listed, the exit status is 0 and nothing is
    printed on the error stream, whatever happens to the individual files.
    Every entry that is not a directory is attempted.  When [detectFace]
    returns an error for a file (picture unreadable, classifier, or a save
    that failed), a line with the path of that file and the error is
    printed, and the run goes on with the files after it. *)
Theorem batch_per_file_errors_are_not_fatal w s files :
  MkdirAll w "output_images" = None ->
  ReadDir w "input_images" = (files, None) ->
  fst (Batch.main w s) = 0 /\
  stderr (snd (Batch.main w s)) = stderr s /\
  (forall file,
      In file files -> IsDir file = false ->
      In (processing_line (Join w "input_images" (Name file)))
         (stdout (snd (Batch.main w s)))) /\
  (forall before file after hasFace err s',
      files = before ++ file :: after ->
      IsDir file = false ->
      Batch.detectFace w (Join w "input_images" (Name file))
        (Join w "output_images" ("output_" +++ Name file +++ ".webp"))
        "output_images" 1024 1024
        (add_stdout
           (snd (Batch.processImages_loop w before
                   "input_images" "output_images" 1024 1024 s))
           [processing_line (Join w "input_images" (Name file))]) =
        ((hasFace, Some err), s') ->
      In (error_line (Join w "input_images" (Name file)) err)
         (stdout (snd (Batch.main w s))) /\
      snd (Batch.main w s) =
      snd (Batch.processImages_loop w after
             "input_images" "output_images" 1024 1024
             (add_stdout s'
                [error_line (Join w "input_images" (Name file)) err]))).
Proof.
  intros Hmk Hdir. rewrite (batch_main_run w s files Hmk Hdir). cbn [fst snd].
  split; [reflexivity|]. split; [apply processImages_loop_streams|]. split.
  - intros file Hin Hfile.
    apply in_split in Hin. destruct Hin as (before & after & ->).
    rewrite processImages_loop_app, processImages_loop_file by assumption.
    cbn zeta. apply processImages_loop_keeps_lines.
    set (s1 := snd (Batch.processImages_loop w before _ _ _ _ s)).
    set (inputPath := Join w "input_images" (Name file)).
    rewrite batch_detectFace_run.
    destruct (detect_outcome_streams w
                (batch_face_path w "output_images" (baseFilename inputPath))
                inputPath
                (Join w "output_images" ("output_" +++ Name file +++ ".webp"))
                1024 1024 (add_stdout s1 [processing_line inputPath]))
      as [Hout _].
    set (r := detect_outcome w _ inputPath _ 1024 1024 _) in *.
    assert (In (processing_line inputPath) (stdout (snd r))) as Hline.
    { rewrite Hout. cbn [add_stdout stdout]. apply in_or_app. right. now left. }
    destruct (snd (fst r)); [|exact Hline].
    cbn [add_stdout stdout]. apply in_or_app. now left.
  - intros before file after hasFace err s' -> Hfile Hrun.
    rewrite processImages_loop_app, processImages_loop_file by assumption.
    cbn zeta. rewrite Hrun. cbn [fst snd].
    split; [|reflexivity].
    apply processImages_loop_keeps_lines.
    cbn [add_stdout stdout]. apply in_or_app. right. now left.
Qed.

Lemma batch_per_file_errors_are_not_fatal_witness :
  fst (Batch.main world_bad_picture start) = 0 /\
  stderr (snd (Batch.main world_bad_picture start)) = [] /\
  In (error_line "input_images/a.jpg" "error reading image")
     (stdout (snd (Batch.main world_bad_picture start))) /\
  In (processing_line "input_images/b.png")
     (stdout (snd (Batch.main world_bad_picture start))) /\
  map fst (written (snd (Batch.main world_bad_picture start))) =
    ["output_images/b_face_1.webp"; "output_images/output_b.png.webp"].
Proof.
  destruct (batch_per_file_errors_are_not_fatal world_bad_picture start
              sample_dir eq_refl eq_refl) as (Hexit & Hstderr & Hall & Hfail).
  split; [exact Hexit|]. split; [exact Hstderr|]. split; [|split].
  - exact (proj1 (Hfail [] (mkFileInfo "a.jpg" false)
                    [mkFileInfo "old" true; mkFileInfo "b.png" false]
                    false "error reading image" _ eq_refl eq_refl eq_refl)).
  - apply (Hall (mkFileInfo "b.png" false)); [|reflexivity].
    right. right. now left.
  - reflexivity.
Defined.

(* ================================================================== *)
(** ** A missing classifier definition *)
(* ================================================================== *)

(** C2, as the specification has it, fails in the batch program: without
    the classifier definition file the run logs one error per input file on
    the standard output, prints nothing on the error stream and exits with
    status 0. *)
Lemma batch_missing_classifier_is_per_file :
  Load world_no_classifier classifier_file = false /\
  Batch.main world_no_classifier start =
  (0,
   mkSys []
     [processing_line "input_images/a.jpg";
      error_line "input_images/a.jpg" "error loading Haar cascade file";
      processing_line "input_images/b.png";
      error_line "input_images/b.png" "error loading Haar cascade file"]
     []).
Proof. split; reflexivity. Qed.

Lemma processImages_loop_no_classifier w files :
  Load w classifier_file = false ->
  forall inputDir outputDir maxWidth maxHeight s,
    snd (Batch.processImages_loop w files inputDir outputDir
           maxWidth maxHeight s) =
    add_stdout s
      (flat_map
         (fun file =>
            if IsDir file then []
            else [processing_line (Join w inputDir (Name file));
                  error_line (Join w inputDir (Name file))
                    "error loading Haar cascade file"])
         files).
Proof.
  intros HLoad.
  induction files as [|file rest IH]; intros inputDir outputDir mw mh s.
  - destruct s. unfold add_stdout. cbn. now rewrite app_nil_r.
  - cbn [flat_map]. destruct (IsDir file) eqn:Hfile.
    + rewrite processImages_loop_dir by assumption. apply IH.
    + rewrite processImages_loop_file by assumption. cbn zeta.
      rewrite batch_detectFace_run, detect_outcome_no_classifier by assumption.
      cbn [fst snd]. rewrite IH. unfold add_stdout.
      cbn [written stdout stderr]. now rewrite <- !app_assoc.
Qed.

(** C2, amended. When the classifier definition file fails to load, the
    single-image program prints a diagnostic on the error stream and exits
    with status 1.  The batch program, which loads the classifier once per
    input file, logs the failure on the standard output as an error of each
    file that is not a directory, goes through the whole directory, writes
    no file, prints nothing on the error stream and exits with status 0. *)
Theorem missing_classifier_in_each_program w s :
  Load w classifier_file = false ->
  Single.main w s =
    (1, add_stderr s
          ["Error: failed to detect face: error loading Haar cascade file"
             +++ nl]) /\
  (forall files,
      MkdirAll w "output_images" = None ->
      ReadDir w "input_images" = (files, None) ->
      Batch.main w s =
      (0, add_stdout s
            (flat_map
               (fun file =>
                  if IsDir file then []
                  else [processing_line (Join w "input_images" (Name file));
                        error_line (Join w "input_images" (Name file))
                          "error loading Haar cascade file"])
               files))).
Proof.
  intros HLoad. split.
  - unfold Single.main, Single.processImage, bind.
    rewrite single_detectFace_run, detect_outcome_no_classifier by assumption.
    reflexivity.
  - intros files Hmk Hdir.
    rewrite (batch_main_run w s files Hmk Hdir).
    now rewrite processImages_loop_no_classifier.
Qed.

Lemma missing_classifier_in_each_program_witness :
  Single.main world_no_classifier start =
    (1, mkSys [] []
          ["Error: failed to detect face: error loading Haar cascade file"
             +++ nl]) /\
  fst (Batch.main world_no_classifier start) = 0.
Proof.
  destruct (missing_classifier_in_each_program world_no_classifier start
              eq_refl) as [Hsingle Hbatch].
  split; [exact Hsingle|].
  now rewrite (Hbatch sample_dir eq_refl eq_refl).
Defined.

(* ================================================================== *)
(** ** Further properties of the region expander *)
(* ================================================================== *)

Lemma Rect_well_formed (x0 y0 x1 y1 : Z) : well_formed (Rect x0 y0 x1 y1).
Proof.
  unfold well_formed, Rect, left, right, top, bottom.
  destruct (Z.gtb_spec x0 x1), (Z.gtb_spec y0 y1); cbn [Min Max X Y]; lia.
Qed.

(** X1. Whatever the detection and the raster (a rectangle outside the
    raster, corners in the wrong order, arithmetic that wraps), the
    rectangle that is outlined and the rectangle that is cut out are well
    formed: left <= right and top <= bottom. *)
Theorem expanded_rectangle_always_well_formed (m : Mat) (face : Rectangle) :
  well_formed (expandedRect m face) /\ well_formed (cropRect m face).
Proof. split; apply Rect_well_formed. Qed.

Lemma expandedRect_inside_bounds (m : Mat) (r : Rectangle) :
  dims_ok (Cols m) (Rows m) -> inside (Cols m) (Rows m) r ->
  inside (Cols m) (Rows m) (expandedRect m r).
Proof.
  intros Hdims Hin. rewrite (expandedRect_inside m r Hdims Hin).
  destruct Hdims as [HW HH].
  destruct Hin as (I1 & I2 & I3 & I4 & I5 & I6).
  pose proof (half_bounds (right r - left r)) as Hw.
  pose proof (half_bounds (bottom r - top r)) as Hh.
  unfold inside, spec_expand. cbn [left right top bottom Min Max X Y].
  fold (left r) (right r) (top r) (bottom r).
  repeat split; lia.
Qed.

(** X2. For a detection of width w and height h inside the raster, the
    expanded rectangle is at least as wide and as high as the detection, at
    most w + 2*(w/2) <= 2w wide and at most h + h/2 + h high. *)
Theorem expanded_rectangle_size (m : Mat) (r : Rectangle) :
  dims_ok (Cols m) (Rows m) -> inside (Cols m) (Rows m) r ->
  right r - left r <= right (expandedRect m r) - left (expandedRect m r) /\
  right (expandedRect m r) - left (expandedRect m r)
    <= (right r - left r) + 2 * ((right r - left r) / 2) /\
  right (expandedRect m r) - left (expandedRect m r) <= 2 * (right r - left r) /\
  bottom r - top r <= bottom (expandedRect m r) - top (expandedRect m r) /\
  bottom (expandedRect m r) - top (expandedRect m r)
    <= 2 * (bottom r - top r) + (bottom r - top r) / 2.
Proof.
  intros Hdims Hin. rewrite (expandedRect_inside m r Hdims Hin).
  destruct Hdims as [HW HH].
  destruct Hin as (I1 & I2 & I3 & I4 & I5 & I6).
  pose proof (half_bounds (right r - left r)) as Hw.
  pose proof (half_bounds (bottom r - top r)) as Hh.
  assert (2 * ((right r - left r) / 2) <= right r - left r)
    by (apply Z.mul_div_le; lia).
  unfold spec_expand. cbn [left right top bottom Min Max X Y].
  fold (left r) (right r) (top r) (bottom r).
  repeat split; lia.
Qed.

Lemma expanded_rectangle_size_witness :
  right (expandedRect (Resized "teest.jpg" 1024 1024) face_a)
    - left (expandedRect (Resized "teest.jpg" 1024 1024) face_a) <= 200 /\
  bottom (expandedRect (Resized "teest.jpg" 1024 1024) face_a)
    - top (expandedRect (Resized "teest.jpg" 1024 1024) face_a) <= 300.
Proof.
  destruct (expanded_rectangle_size (Resized "teest.jpg" 1024 1024) face_a)
    as (_ & _ & Hwide & _ & Hhigh); [by_evaluation | by_evaluation |].
  split; [exact Hwide | exact Hhigh].
Defined.

(** X3. When the padded box of a detection fits in the raster, nothing is
    clamped: the sides move out by w/2 to the left and to the right (the
    box keeps its horizontal centre), by h/2 upwards and by the full h
    downwards. *)
Theorem unclamped_expansion (m : Mat) (r : Rectangle) :
  dims_ok (Cols m) (Rows m) -> inside (Cols m) (Rows m) r ->
  (right r - left r) / 2 <= left r ->
  right r + (right r - left r) / 2 <= Cols m ->
  (bottom r - top r) / 2 <= top r ->
  bottom r + (bottom r - top r) <= Rows m ->
  left r - left (expandedRect m r) = (right r - left r) / 2 /\
  right (expandedRect m r) - right r = (right r - left r) / 2 /\
  left (expandedRect m r) + right (expandedRect m r) = left r + right r /\
  top r - top (expandedRect m r) = (bottom r - top r) / 2 /\
  bottom (expandedRect m r) - bottom r = bottom r - top r.
Proof.
  intros Hdims Hin Hl Hr Ht Hb. rewrite (expandedRect_inside m r Hdims Hin).
  unfold spec_expand. cbn [left right top bottom Min Max X Y].
  fold (left r) (right r) (top r) (bottom r).
  repeat split; lia.
Qed.

Lemma unclamped_expansion_witness :
  left face_a - left (expandedRect (Resized "teest.jpg" 1024 1024) face_a) = 50 /\
  bottom (expandedRect (Resized "teest.jpg" 1024 1024) face_a) - bottom face_a
    = 120.
Proof.
  destruct (unclamped_expansion (Resized "teest.jpg" 1024 1024) face_a)
    as (Hl & _ & _ & _ & Hb);
    [by_evaluation | by_evaluation | by_evaluation | by_evaluation
     | by_evaluation | by_evaluation |].
  split; [exact Hl | exact Hb].
Defined.

(* ================================================================== *)
(** ** Further properties of [detectFace] *)
(* ================================================================== *)

(** The six ways a call of [detectFace] can end. *)
Lemma detect_outcome_cases w path_of imagePath outputImagePath maxWidth maxHeight s :
  (Load w classifier_file = false /\
   detect_outcome w path_of imagePath outputImagePath maxWidth maxHeight s =
   ((false, Some "error loading Haar cascade file"), s)) \/
  (Load w classifier_file = true /\ IMRead_Empty w imagePath = true /\
   detect_outcome w path_of imagePath outputImagePath maxWidth maxHeight s =
   ((false, Some "error reading image"), s)) \/
  (Load w classifier_file = true /\ IMRead_Empty w imagePath = false /\
   detections w imagePath maxWidth maxHeight = [] /\
   detect_outcome w path_of imagePath outputImagePath maxWidth maxHeight s =
   ((false, None), s)) \/
  (Load w classifier_file = true /\ IMRead_Empty w imagePath = false /\
   detections w imagePath maxWidth maxHeight <> [] /\
   exists k err,
     (k < List.length (detections w imagePath maxWidth maxHeight))%nat /\
     detect_outcome w path_of imagePath outputImagePath maxWidth maxHeight s =
     ((false, Some ("error saving face image: " +++ err)),
      add_files s
        (firstn k (crop_files path_of
                     (working_raster imagePath maxWidth maxHeight) 0
                     (detections w imagePath maxWidth maxHeight))))) \/
  (Load w classifier_file = true /\ IMRead_Empty w imagePath = false /\
   detections w imagePath maxWidth maxHeight <> [] /\
   exists err,
     detect_outcome w path_of imagePath outputImagePath maxWidth maxHeight s =
     ((false, Some ("error saving output image in WebP format: " +++ err)),
      add_files s
        (crop_files path_of (working_raster imagePath maxWidth maxHeight) 0
           (detections w imagePath maxWidth maxHeight)))) \/
  (Load w classifier_file = true /\ IMRead_Empty w imagePath = false /\
   detections w imagePath maxWidth maxHeight <> [] /\
   detect_outcome w path_of imagePath outputImagePath maxWidth maxHeight s =
   ((true, None),
    add_files s
      (crop_files path_of (working_raster imagePath maxWidth maxHeight) 0
         (detections w imagePath maxWidth maxHeight)
       ++ [(outputImagePath,
            annotated_output w imagePath maxWidth maxHeight)]))).
Proof.
  unfold detect_outcome, annotated_output.
  destruct (Load w classifier_file) eqn:HLoad; cbn [negb]; [|now left].
  right.
  destruct (IMRead_Empty w imagePath) eqn:HRead; [now left|].
  right. cbn zeta.
  fold (working_raster imagePath maxWidth maxHeight).
  fold (detections w imagePath maxWidth maxHeight).
  destruct (detections w imagePath maxWidth maxHeight) as [|face rest] eqn:Hd;
    [now left|].
  right.
  destruct (first_failure w (written s) _) as [[k err]|] eqn:Hff.
  - left. repeat split; try discriminate. exists k, err. split; [|reflexivity].
    apply first_failure_lt in Hff. now rewrite crop_files_length in Hff.
  - right.
    destruct (save_outcome w _ outputImagePath _) as [err|].
    + left. repeat split; try discriminate. now exists err.
    + right. repeat split; discriminate.
Qed.

Lemma nth_error_Forall {A : Type} (P : A -> Prop) (l : list A) k x :
  Forall P l -> nth_error l k = Some x -> P x.
Proof.
  intros HP Hk. rewrite Forall_forall in HP.
  apply HP. eapply nth_error_In. eassumption.
Qed.

(** X4. When every detection lies inside the working raster, every region
    handed to [img.Region] lies inside the raster it is cut out of, which
    still has the dimensions of the working raster. *)
Theorem cut_regions_inside_raster
    v w imagePath outputImagePath maxWidth maxHeight s new j p c :
  dims_ok (int_of_uint maxWidth) (int_of_uint maxHeight) ->
  Forall (inside (int_of_uint maxWidth) (int_of_uint maxHeight))
    (detections w imagePath maxWidth maxHeight) ->
  written (snd (detectFace_of v w imagePath outputImagePath
                  maxWidth maxHeight s)) = written s ++ new ->
  (j < List.length (detections w imagePath maxWidth maxHeight))%nat ->
  nth_error new j = Some (p, c) ->
  exists m r,
    c = Region m r /\
    Cols m = int_of_uint maxWidth /\ Rows m = int_of_uint maxHeight /\
    inside (Cols m) (Rows m) r.
Proof.
  intros Hdims Hall Hnew Hj Hnth. rewrite detectFace_of_run in Hnew.
  pose proof (detect_outcome_files _ _ _ _ _ _ _ _ Hnew j p c Hj Hnth) as Hcrop.
  apply crop_files_nth_inv in Hcrop.
  destruct Hcrop as (face & Hface & _ & ->).
  set (mj := annotated (working_raster imagePath maxWidth maxHeight)
               (firstn (S j) (detections w imagePath maxWidth maxHeight))).
  destruct (annotated_dims
              (firstn (S j) (detections w imagePath maxWidth maxHeight))
              (working_raster imagePath maxWidth maxHeight)) as [HC HR].
  fold mj in HC, HR. cbn [working_raster Cols Rows] in HC, HR.
  exists mj, (cropRect mj face). split; [reflexivity|].
  split; [exact HC|]. split; [exact HR|].
  rewrite (cropRect_expandedRect mj face).
  apply expandedRect_inside_bounds; rewrite HC, HR; trivial.
  exact (nth_error_Forall _ _ _ _ Hall Hface).
Qed.

Lemma cut_regions_inside_raster_witness :
  exists m r,
    Region (annotated (Resized "teest.jpg" 1024 1024) [face_a])
      (mkRectangle (Pt 50 40) (Pt 250 340)) = Region m r /\
    Cols m = 1024 /\ Rows m = 1024 /\ inside (Cols m) (Rows m) r.
Proof.
  refine (cut_regions_inside_raster
            SingleVariant (world_with [face_a; face_b])
            "teest.jpg" "output.webp" 1024 1024 start
            (written (snd (Single.detectFace (world_with [face_a; face_b])
               "teest.jpg" "output.webp" 1024 1024 start)))
            0 "face_1.webp" _ _ _ _ _ _);
    [by_evaluation | | reflexivity | vm_compute; lia | reflexivity].
  repeat constructor; vm_compute; congruence.
Defined.

(** X5. The annotated raster has the dimensions of the working raster and
    carries one outline per detection, in the order of the detector; when
    every detection lies inside the raster, so does every outline. *)
Theorem annotated_output_outlines w imagePath maxWidth maxHeight :
  dims_ok (int_of_uint maxWidth) (int_of_uint maxHeight) ->
  Forall (inside (int_of_uint maxWidth) (int_of_uint maxHeight))
    (detections w imagePath maxWidth maxHeight) ->
  Cols (annotated_output w imagePath maxWidth maxHeight) = int_of_uint maxWidth /\
  Rows (annotated_output w imagePath maxWidth maxHeight) = int_of_uint maxHeight /\
  outlines (annotated_output w imagePath maxWidth maxHeight) =
    map (expandedRect (working_raster imagePath maxWidth maxHeight))
      (detections w imagePath maxWidth maxHeight) /\
  Forall (inside (int_of_uint maxWidth) (int_of_uint maxHeight))
    (outlines (annotated_output w imagePath maxWidth maxHeight)).
Proof.
  intros Hdims Hall. unfold annotated_output.
  destruct (annotated_dims (detections w imagePath maxWidth maxHeight)
              (working_raster imagePath maxWidth maxHeight)) as [HC HR].
  split; [exact HC|]. split; [exact HR|].
  rewrite annotated_outlines. cbn [outlines working_raster app].
  split; [reflexivity|].
  rewrite Forall_forall in *. intros e He.
  apply in_map_iff in He. destruct He as (face & <- & Hface).
  apply (expandedRect_inside_bounds
           (Resized imagePath (int_of_uint maxWidth) (int_of_uint maxHeight)));
    cbn [Cols Rows]; auto.
Qed.

Lemma annotated_output_outlines_witness :
  outlines (annotated_output (world_with [face_a; face_b])
              "teest.jpg" 1024 1024) =
    [mkRectangle (Pt 50 40) (Pt 250 340); mkRectangle (Pt 0 0) (Pt 60 80)].
Proof.
  refine (proj1 (proj2 (proj2 (annotated_output_outlines
            (world_with [face_a; face_b]) "teest.jpg" 1024 1024 _ _))));
    [by_evaluation | repeat constructor; vm_compute; congruence].
Defined.

(** X6. A picture that cannot be read (the classifier being loaded):
    [detectFace] returns the error [error reading image] and writes
    nothing, in both programs; the batch driver logs it with the path of
    the picture, the single-image driver returns
    [failed to detect face: error reading image] without printing its
    log record. *)
Theorem unreadable_picture w imagePath maxWidth maxHeight :
  Load w classifier_file = true ->
  IMRead_Empty w imagePath = true ->
  (forall v outputImagePath s,
      detectFace_of v w imagePath outputImagePath maxWidth maxHeight s =
      ((false, Some "error reading image"), s)) /\
  (forall file inputDir outputDir s,
      IsDir file = false ->
      Join w inputDir (Name file) = imagePath ->
      Batch.processImages_loop w [file] inputDir outputDir
        maxWidth maxHeight s =
      (tt, add_stdout s [processing_line imagePath;
                         error_line imagePath "error reading image"])) /\
  (forall outputPath s,
      Single.processImage w imagePath outputPath maxWidth maxHeight s =
      (Some "failed to detect face: error reading image", s)).
Proof.
  intros HLoad HRead.
  assert (forall v outputImagePath s,
             detectFace_of v w imagePath outputImagePath maxWidth maxHeight s =
             ((false, Some "error reading image"), s)) as Hdetect.
  { intros v out s. rewrite detectFace_of_run. unfold detect_outcome.
    now rewrite HLoad, HRead. }
  split; [exact Hdetect|]. split.
  - intros file inputDir outputDir s Hfile Hpath.
    rewrite processImages_loop_file by assumption. cbn zeta.
    rewrite Hpath.
    rewrite (Hdetect (BatchVariant outputDir) _ _
             : Batch.detectFace _ _ _ _ _ _ _ = _).
    cbn [fst snd Batch.processImages_loop ret].
    unfold add_stdout. cbn [written stdout stderr].
    now rewrite <- app_assoc.
  - intros out s. unfold Single.processImage, bind.
    now rewrite (Hdetect SingleVariant out s
                 : Single.detectFace _ _ _ _ _ _ = _).
Qed.

Lemma unreadable_picture_witness :
  Batch.detectFace world_bad_picture "input_images/a.jpg"
    "output_images/output_a.jpg.webp" "output_images" 1024 1024 start =
  ((false, Some "error reading image"), start).
Proof.
  exact (proj1 (unreadable_picture world_bad_picture "input_images/a.jpg"
                  1024 1024 eq_refl eq_refl)
           (BatchVariant "output_images") "output_images/output_a.jpg.webp"
           start).
Defined.

(** X7. When every per-face file has been saved and saving the annotated
    raster fails, [detectFace] returns
    [error saving output image in WebP format: ...] and no face; the
    per-face files stay written. *)
Theorem failed_output_save_keeps_the_faces
    v w imagePath outputImagePath maxWidth maxHeight s err :
  Load w classifier_file = true ->
  IMRead_Empty w imagePath = false ->
  (1 <= List.length (detections w imagePath maxWidth maxHeight))%nat ->
  saves_succeed w (written s) (face_files v w imagePath maxWidth maxHeight) ->
  save_outcome w (written s ++ face_files v w imagePath maxWidth maxHeight)
    outputImagePath (annotated_output w imagePath maxWidth maxHeight)
    = Some err ->
  detectFace_of v w imagePath outputImagePath maxWidth maxHeight s =
  ((false, Some ("error saving output image in WebP format: " +++ err)),
   add_files s (face_files v w imagePath maxWidth maxHeight)).
Proof.
  intros HLoad HRead HN Hok Hfail.
  rewrite detectFace_of_run. unfold detect_outcome.
  rewrite HLoad, HRead. cbn [negb]. cbn zeta.
  fold (working_raster imagePath maxWidth maxHeight).
  fold (detections w imagePath maxWidth maxHeight).
  unfold face_files, annotated_output in *.
  destruct (detections w imagePath maxWidth maxHeight) as [|face rest] eqn:Hd;
    [simpl in HN; lia|].
  rewrite (first_failure_none _ _ _ Hok). now rewrite Hfail.
Qed.

Lemma failed_output_save_keeps_the_faces_witness :
  fst (Single.detectFace world_output_fails "teest.jpg" "output.webp"
         1024 1024 start) =
    (false,
     Some "error saving output image in WebP format: permission denied") /\
  map fst (written (snd (Single.detectFace world_output_fails "teest.jpg"
                           "output.webp" 1024 1024 start))) =
    ["face_1.webp"; "face_2.webp"].
Proof.
  assert (saves_succeed world_output_fails (written start)
            (face_files SingleVariant world_output_fails "teest.jpg"
               1024 1024)) as Hok.
  { intros j path mat Hj. destruct j as [|[|j]].
    - injection Hj as <- <-. reflexivity.
    - injection Hj as <- <-. reflexivity.
    - destruct j; discriminate Hj. }
  pose proof (failed_output_save_keeps_the_faces SingleVariant
                world_output_fails "teest.jpg" "output.webp" 1024 1024 start
                "permission denied" eq_refl eq_refl (le_S 1 1 (le_n 1))
                Hok eq_refl) as Hrun.
  cbn [detectFace_of] in Hrun. rewrite Hrun. split; reflexivity.
Defined.

(** X8. What the two results of [detectFace] mean.  It reports a face only
    without an error, with at least one detection, and after every per-face
    file and the annotated raster have been written.  It reports no face
    and no error only when the classifier was loaded, the picture was read
    and the detector found nothing, and then it has written nothing. *)
Theorem detectFace_result_meaning
    v w imagePath outputImagePath maxWidth maxHeight s hasFace err s' :
  detectFace_of v w imagePath outputImagePath maxWidth maxHeight s =
    ((hasFace, err), s') ->
  (hasFace = true ->
   err = None /\
   detections w imagePath maxWidth maxHeight <> [] /\
   s' = add_files s
          (face_files v w imagePath maxWidth maxHeight
             ++ [(outputImagePath,
                  annotated_output w imagePath maxWidth maxHeight)])) /\
  (hasFace = false -> err = None ->
   Load w classifier_file = true /\ IMRead_Empty w imagePath = false /\
   detections w imagePath maxWidth maxHeight = [] /\ s' = s) /\
  (err <> None -> hasFace = false).
Proof.
  rewrite detectFace_of_run. intros Hrun.
  destruct (detect_outcome_cases w (face_path_of v w imagePath) imagePath
              outputImagePath maxWidth maxHeight s)
    as [(_ & H)|[(_ & _ & H)|[(HL & HR & Hd & H)|[(_ & _ & _ & k & e & _ & H)
       |[(_ & _ & _ & e & H)|(_ & _ & Hd & H)]]]]];
    rewrite H in Hrun; injection Hrun as <- <- <-;
    (split; [|split]); intros; try discriminate; try congruence;
    repeat split; trivial.
Qed.

Lemma detectFace_result_meaning_witness :
  detections (world_with []) "teest.jpg" 1024 1024 = [] /\
  detections (world_with [face_a]) "teest.jpg" 1024 1024 <> [].
Proof.
  split.
  - exact (proj1 (proj2 (proj2
             (proj1 (proj2 (detectFace_result_meaning SingleVariant
                               (world_with []) "teest.jpg" "output.webp"
                               1024 1024 start false None start eq_refl))
                eq_refl eq_refl)))).
  - exact (proj1 (proj2
             (proj1 (detectFace_result_meaning SingleVariant
                       (world_with [face_a]) "teest.jpg" "output.webp"
                       1024 1024 start true None _ eq_refl)
                eq_refl))).
Defined.

Lemma crop_files_path_of path_of faces m i p c :
  In (p, c) (crop_files path_of m i faces) ->
  exists k, (1 <= k <= List.length faces)%nat /\ p = path_of (i + Z.of_nat k).
Proof.
  intros Hin.
  assert (In p (map fst (crop_files path_of m i faces))) as Hp
    by (apply in_map_iff; now exists (p, c)).
  rewrite crop_files_paths in Hp. apply in_map_iff in Hp.
  destruct Hp as (k & <- & Hk). apply in_seq in Hk.
  exists k. split; [lia | reflexivity].
Qed.

(** What a call of [detectFace] leaves behind: nothing on the two streams,
    and at most one new file per detection and one more. *)
Lemma detect_outcome_footprint w path_of imagePath outputImagePath maxWidth maxHeight s :
  stdout (snd (detect_outcome w path_of imagePath outputImagePath
                 maxWidth maxHeight s)) = stdout s /\
  stderr (snd (detect_outcome w path_of imagePath outputImagePath
                 maxWidth maxHeight s)) = stderr s /\
  exists new,
    written (snd (detect_outcome w path_of imagePath outputImagePath
                    maxWidth maxHeight s)) = written s ++ new /\
    (List.length new
     <= S (List.length (detections w imagePath maxWidth maxHeight)))%nat /\
    forall p c,
      In (p, c) new ->
      p = outputImagePath \/
      exists k,
        (1 <= k <= List.length (detections w imagePath maxWidth maxHeight))%nat /\
        p = path_of (Z.of_nat k).
Proof.
  destruct (detect_outcome_streams w path_of imagePath outputImagePath
              maxWidth maxHeight s) as [Hout Herr].
  split; [exact Hout|]. split; [exact Herr|].
  set (crops := crop_files path_of (working_raster imagePath maxWidth maxHeight)
                  0 (detections w imagePath maxWidth maxHeight)).
  assert (List.length crops
          = List.length (detections w imagePath maxWidth maxHeight)) as Hlen
    by apply crop_files_length.
  assert (forall p c, In (p, c) crops ->
            exists k,
              (1 <= k <= List.length (detections w imagePath maxWidth maxHeight))%nat
              /\ p = path_of (Z.of_nat k)) as Hcrops.
  { intros p c Hin. apply crop_files_path_of in Hin.
    destruct Hin as (k & Hk & ->). exists k. split; [exact Hk|reflexivity]. }
  destruct (detect_outcome_cases w path_of imagePath outputImagePath
              maxWidth maxHeight s)
    as [(_ & H)|[(_ & _ & H)|[(_ & _ & _ & H)|[(_ & _ & _ & k & e & Hk & H)
       |[(_ & _ & _ & e & H)|(_ & _ & _ & H)]]]]];
    rewrite H; cbn [snd add_files written]; fold crops.
  - exists []. rewrite app_nil_r. repeat split; [simpl; lia | contradiction].
  - exists []. rewrite app_nil_r. repeat split; [simpl; lia | contradiction].
  - exists []. rewrite app_nil_r. repeat split; [simpl; lia | contradiction].
  - exists (firstn k crops). split; [reflexivity|]. split.
    + rewrite length_firstn. lia.
    + intros p c Hin. right. apply In_firstn in Hin. eauto.
  - exists crops. split; [reflexivity|]. split; [lia|].
    intros p c Hin. right. eauto.
  - exists (crops ++ [(outputImagePath,
                       annotated_output w imagePath maxWidth maxHeight)]).
    split; [reflexivity|]. split.
    + rewrite length_app. simpl. lia.
    + intros p c Hin. apply in_app_or in Hin. destruct Hin as [Hin|[Hin|[]]].
      * right. eauto.
      * left. now injection Hin as <- _.
Qed.

(** X9. A call of [detectFace], however it ends, prints nothing, removes
    nothing, and writes at most N + 1 files for N detections, each of them
    at the output path or at the per-face path of an index between 1 and
    N. *)
Theorem detectFace_footprint
    v w imagePath outputImagePath maxWidth maxHeight s :
  stdout (snd (detectFace_of v w imagePath outputImagePath
                 maxWidth maxHeight s)) = stdout s /\
  stderr (snd (detectFace_of v w imagePath outputImagePath
                 maxWidth maxHeight s)) = stderr s /\
  exists new,
    written (snd (detectFace_of v w imagePath outputImagePath
                    maxWidth maxHeight s)) = written s ++ new /\
    (List.length new
     <= S (List.length (detections w imagePath maxWidth maxHeight)))%nat /\
    forall p c,
      In (p, c) new ->
      p = outputImagePath \/
      exists k,
        (1 <= k <= List.length (detections w imagePath maxWidth maxHeight))%nat /\
        p = face_path_of v w imagePath (Z.of_nat k).
Proof. rewrite detectFace_of_run. apply detect_outcome_footprint. Qed.

(* ================================================================== *)
(** ** Further properties of the batch driver *)
(* ================================================================== *)

(** X10. The exit status of the batch program.  A failure to create the
    output directory or to list the input directory is reported on the
    error stream and ends the run with status 1 before any picture is
    looked at; the status is 0 exactly when both succeed. *)
Theorem batch_exit_status w s :
  (forall err,
      MkdirAll w "output_images" = Some err ->
      Batch.main w s =
      (1, add_stderr s ["Error creating output directory: " +++ err +++ nl])) /\
  (forall files err,
      MkdirAll w "output_images" = None ->
      ReadDir w "input_images" = (files, Some err) ->
      Batch.main w s =
      (1, add_stderr s
            ["Error: failed to read input directory: " +++ err +++ nl])) /\
  (fst (Batch.main w s) = 0 <->
   MkdirAll w "output_images" = None /\
   snd (ReadDir w "input_images") = None).
Proof.
  assert (forall err,
      MkdirAll w "output_images" = Some err ->
      Batch.main w s =
      (1, add_stderr s ["Error creating output directory: " +++ err +++ nl]))
    as Hmk.
  { intros err H. unfold Batch.main. now rewrite H. }
  assert (forall files err,
      MkdirAll w "output_images" = None ->
      ReadDir w "input_images" = (files, Some err) ->
      Batch.main w s =
      (1, add_stderr s
            ["Error: failed to read input directory: " +++ err +++ nl]))
    as Hdir.
  { intros files err H1 H2. unfold Batch.main, Batch.processImages.
    rewrite H1. cbn zeta. unfold bind. now rewrite H2. }
  split; [exact Hmk|]. split; [exact Hdir|].
  destruct (MkdirAll w "output_images") as [e1|] eqn:H1.
  - rewrite (Hmk e1 eq_refl). cbn [fst]. split; [discriminate|].
    intros [H _]. discriminate H.
  - destruct (ReadDir w "input_images") as [files [e2|]] eqn:H2.
    + rewrite (Hdir files e2 eq_refl eq_refl). cbn [fst snd].
      split; [discriminate|]. intros [_ H]. discriminate H.
    + rewrite (batch_main_run w s files H1 H2). cbn [fst snd]. now split.
Qed.

Lemma batch_exit_status_witness :
  Batch.main world_no_output_dir start =
    (1, mkSys [] []
          ["Error creating output directory: "
             +++ "mkdir output_images: permission denied" +++ nl]) /\
  fst (Batch.main (world_with [face_a]) start) = 0.
Proof.
  destruct (batch_exit_status world_no_output_dir start) as (Hmk & _ & _).
  destruct (batch_exit_status (world_with [face_a]) start) as (_ & _ & Hok).
  split; [exact (Hmk _ eq_refl) | apply Hok; now split].
Defined.

(** X11. Directories of the input directory are skipped without a trace:
    the batch loop does on a listing what it does on the listing without
    its directories. *)
Theorem directories_are_skipped w files :
  forall inputDir outputDir maxWidth maxHeight s,
    Batch.processImages_loop w files inputDir outputDir maxWidth maxHeight s =
    Batch.processImages_loop w (non_directories files) inputDir outputDir
      maxWidth maxHeight s.
Proof.
  induction files as [|file rest IH]; intros inputDir outputDir mw mh s;
    [reflexivity|].
  unfold non_directories. cbn [filter]. fold (non_directories rest).
  destruct (IsDir file) eqn:Hfile; cbn [negb].
  - rewrite processImages_loop_dir by assumption. apply IH.
  - rewrite !processImages_loop_file by assumption. cbn zeta. apply IH.
Qed.




Lemma always_saves_succeed w fs todo : always_saves w -> saves_succeed w fs todo.
Proof. intros H j path mat _. apply H. Qed.

Lemma detect_outcome_always_saves w path_of imagePath outputImagePath maxWidth maxHeight s :
  Load w classifier_file = true -> always_saves w ->
  detect_outcome w path_of imagePath outputImagePath maxWidth maxHeight s =
  if IMRead_Empty w imagePath then ((false, Some "error reading image"), s)
  else
    match detections w imagePath maxWidth maxHeight with
    | [] => ((false, None), s)
    | _ :: _ =>
        ((true, None),
         add_files s
           (crop_files path_of (working_raster imagePath maxWidth maxHeight) 0
              (detections w imagePath maxWidth maxHeight)
            ++ [(outputImagePath,
                 annotated_output w imagePath maxWidth maxHeight)]))
    end.
Proof.
  intros HLoad Hsaves. unfold detect_outcome, annotated_output.
  rewrite HLoad. cbn [negb].
  destruct (IMRead_Empty w imagePath); [reflexivity|]. cbn zeta.
  fold (working_raster imagePath maxWidth maxHeight).
  fold (detections w imagePath maxWidth maxHeight).
  destruct (detections w imagePath maxWidth maxHeight) as [|face rest];
    [reflexivity|].
  rewrite (first_failure_none _ _ _ (always_saves_succeed _ _ _ Hsaves)).
  now rewrite Hsaves.
Qed.

Lemma processImages_loop_always_saves w files :
  Load w classifier_file = true -> always_saves w ->
  forall inputDir outputDir maxWidth maxHeight s,
    snd (Batch.processImages_loop w files inputDir outputDir
           maxWidth maxHeight s) =
    mkSys
      (written s
         ++ flat_map (batch_entry_files w inputDir outputDir maxWidth maxHeight)
              files)
      (stdout s ++ flat_map (batch_entry_lines w inputDir) files)
      (stderr s).
Proof.
  intros HLoad Hsaves.
  induction files as [|file rest IH]; intros inputDir outputDir mw mh s.
  - destruct s. cbn. now rewrite !app_nil_r.
  - cbn [flat_map]. unfold batch_entry_files at 1, batch_entry_lines at 1.
    destruct (IsDir file) eqn:Hfile.
    + rewrite processImages_loop_dir by assumption. apply IH.
    + rewrite processImages_loop_file by assumption. cbn zeta.
      rewrite batch_detectFace_run, detect_outcome_always_saves by assumption.
      set (inputPath := Join w inputDir (Name file)).
      destruct (IMRead_Empty w inputPath).
      * cbn [fst snd]. rewrite IH. cbn [add_stdout written stdout stderr app].
        now rewrite <- !app_assoc.
      * unfold face_files, face_path_of.
        destruct (detections w inputPath mw mh) as [|face more];
          cbn [fst snd]; rewrite IH;
          cbn [add_files add_stdout written stdout stderr app];
          now rewrite <- !app_assoc.
Qed.

(** X13. When the classifier loads and saving never fails, the batch
    program exits with status 0 having written, for every entry of the
    input directory in the order of the listing, nothing for a directory,
    an unreadable picture or a picture without detection, and otherwise the
    per-face files followed by the annotated raster; it has printed one
    progress line per picture and one error line per unreadable picture. *)
Theorem batch_inventory_when_saves_succeed w s files :
  Load w classifier_file = true -> always_saves w ->
  MkdirAll w "output_images" = None ->
  ReadDir w "input_images" = (files, None) ->
  Batch.main w s =
  (0,
   mkSys
     (written s
        ++ flat_map
             (batch_entry_files w "input_images" "output_images" 1024 1024)
             files)
     (stdout s ++ flat_map (batch_entry_lines w "input_images") files)
     (stderr s)).
Proof.
  intros HLoad Hsaves Hmk Hdir.
  rewrite (batch_main_run w s files Hmk Hdir).
  now rewrite processImages_loop_always_saves.
Qed.

Lemma always_saves_world_bad_picture : always_saves world_bad_picture.
Proof. intros fs path mat. reflexivity. Defined.

Lemma batch_inventory_when_saves_succeed_witness :
  map fst (written (snd (Batch.main world_bad_picture start))) =
    ["output_images/b_face_1.webp"; "output_images/output_b.png.webp"] /\
  stdout (snd (Batch.main world_bad_picture start)) =
    [processing_line "input_images/a.jpg";
     error_line "input_images/a.jpg" "error reading image";
     processing_line "input_images/b.png"].
Proof.
  rewrite (batch_inventory_when_saves_succeed world_bad_picture start
             sample_dir eq_refl always_saves_world_bad_picture
             eq_refl eq_refl).
  split; reflexivity.
Defined.

(* ================================================================== *)
(** ** Further properties of the single-image driver *)
(* ================================================================== *)

(** X14. The single-image program ends in one of two ways.  With status 0:
    nothing on the error stream, and on the standard output the log record
    and the line [Image successfully processed and saved to: output.webp],
    which is printed whether or not a file was saved; [has_face] is true
    exactly when the per-face files and [output.webp] have been written,
    and false only when there was no detection and nothing was written.
    With status 1: nothing on the standard output and one line
    [Error: failed to detect face: ...] on the error stream. *)
Theorem single_main_outcome w s :
  (fst (Single.main w s) = 0 \/ fst (Single.main w s) = 1) /\
  (fst (Single.main w s) = 0 ->
   stderr (snd (Single.main w s)) = stderr s /\
   exists hasFace,
     stdout (snd (Single.main w s)) =
       stdout s ++ single_report w "teest.jpg" "output.webp" hasFace /\
     (hasFace = true ->
      detections w "teest.jpg" 1024 1024 <> [] /\
      written (snd (Single.main w s)) =
        written s ++ face_files SingleVariant w "teest.jpg" 1024 1024
          ++ [("output.webp", annotated_output w "teest.jpg" 1024 1024)]) /\
     (hasFace = false ->
      detections w "teest.jpg" 1024 1024 = [] /\
      written (snd (Single.main w s)) = written s)) /\
  (fst (Single.main w s) = 1 ->
   stdout (snd (Single.main w s)) = stdout s /\
   exists err,
     stderr (snd (Single.main w s)) =
       stderr s ++ ["Error: failed to detect face: " +++ err +++ nl]).
Proof.
  unfold Single.main, Single.processImage, bind. cbn zeta.
  rewrite single_detectFace_run.
  destruct (detect_outcome_cases w single_face_path "teest.jpg" "output.webp"
              1024 1024 s)
    as [(_ & H)|[(_ & _ & H)|[(_ & _ & Hd & H)|[(_ & _ & _ & k & e & _ & H)
       |[(_ & _ & _ & e & H)|(_ & _ & Hd & H)]]]]];
    rewrite H; cbn [fst snd Printf Fprintf_Stderr ret written stdout stderr
                    add_files].
  - split; [now right|]. split; [discriminate|]. intros _.
    split; [reflexivity|]. now eexists.
  - split; [now right|]. split; [discriminate|]. intros _.
    split; [reflexivity|]. now eexists.
  - split; [now left|]. split; [|discriminate]. intros _.
    split; [reflexivity|]. exists false. unfold single_report.
    split; [now rewrite <- app_assoc|]. split; [discriminate|]. now split.
  - split; [now right|]. split; [discriminate|]. intros _.
    split; [reflexivity|]. now eexists.
  - split; [now right|]. split; [discriminate|]. intros _.
    split; [reflexivity|]. now eexists.
  - split; [now left|]. split; [|discriminate]. intros _.
    split; [reflexivity|]. exists true. unfold single_report.
    split; [now rewrite <- app_assoc|]. split; [|discriminate].
    intros _. split; [exact Hd | reflexivity].
Qed.

Lemma single_main_outcome_witness :
  stderr (snd (Single.main (world_with []) start)) = [] /\
  exists hasFace,
    stdout (snd (Single.main (world_with []) start)) =
      [] ++ single_report (world_with []) "teest.jpg" "output.webp" hasFace /\
    (hasFace = true ->
     detections (world_with []) "teest.jpg" 1024 1024 <> [] /\
     written (snd (Single.main (world_with []) start)) =
       [] ++ face_files SingleVariant (world_with []) "teest.jpg" 1024 1024
         ++ [("output.webp",
              annotated_output (world_with []) "teest.jpg" 1024 1024)]) /\
    (hasFace = false ->
     detections (world_with []) "teest.jpg" 1024 1024 = [] /\
     written (snd (Single.main (world_with []) start)) = []).
Proof.
  exact (proj1 (proj2 (single_main_outcome (world_with []) start)) eq_refl).
Defined.

Lemma NoDup_firstn {A : Type} (l : list A) :
  forall k, NoDup l -> NoDup (firstn k l).
Proof.
  induction l as [|a l IH]; intros [|k] Hl; cbn [firstn]; try constructor.
  - inversion_clear Hl as [|? ? Ha Hrest]. intros Hin. apply Ha.
    eapply In_firstn. eassumption.
  - inversion_clear Hl. now apply IH.
Qed.

Lemma single_face_path_not_output (i : Z) : single_face_path i <> "output.webp".
Proof. unfold single_face_path. cbn. discriminate. Qed.

Lemma single_crop_paths_NoDup m (faces : list Rectangle) :
  NoDup (map fst (crop_files single_face_path m 0 faces)).
Proof.
  rewrite crop_files_paths.
  apply (indexed_names_NoDup single_face_path), single_face_path_inj.
Qed.

(** X15. In one run of the single-image program no path is written twice:
    the per-face files have pairwise distinct names, and none of them is
    [output.webp]. *)
Theorem single_run_paths_distinct w s :
  exists new,
    written (snd (Single.main w s)) = written s ++ new /\
    NoDup (map fst new).
Proof.
  unfold Single.main, Single.processImage, bind. cbn zeta.
  rewrite single_detectFace_run.
  set (crops := crop_files single_face_path
                  (working_raster "teest.jpg" 1024 1024) 0
                  (detections w "teest.jpg" 1024 1024)).
  assert (NoDup (map fst crops)) as Hcrops by apply single_crop_paths_NoDup.
  destruct (detect_outcome_cases w single_face_path "teest.jpg" "output.webp"
              1024 1024 s)
    as [(_ & H)|[(_ & _ & H)|[(_ & _ & Hd & H)|[(_ & _ & _ & k & e & _ & H)
       |[(_ & _ & _ & e & H)|(_ & _ & Hd & H)]]]]];
    rewrite H; cbn [fst snd Printf Fprintf_Stderr ret written stdout stderr
                    add_files]; fold crops.
  - exists []. rewrite app_nil_r. split; [reflexivity | constructor].
  - exists []. rewrite app_nil_r. split; [reflexivity | constructor].
  - exists []. rewrite app_nil_r. split; [reflexivity | constructor].
  - exists (firstn k crops). split; [reflexivity|].
    rewrite <- firstn_map. now apply NoDup_firstn.
  - exists crops. now split.
  - exists (crops ++ [("output.webp",
                       annotated_output w "teest.jpg" 1024 1024)]).
    split; [reflexivity|]. rewrite map_app. apply NoDup_app; trivial.
    + cbn. constructor; [intros []|constructor].
    + intros p Hp [Hq|[]]. cbn in Hq. subst p.
      apply in_map_iff in Hp. destruct Hp as ([p c] & Hp & Hin).
      cbn in Hp. subst p. apply crop_files_path_of in Hin.
      destruct Hin as (i & _ & Hi).
      exact (single_face_path_not_output _ (eq_sym Hi)).
Qed.

(* ================================================================== *)
(** ** The base name of a picture *)
(* ================================================================== *)

Lemma string_of_list_ascii_app (a b : list ascii) :
  string_of_list_ascii (a ++ b) =
  string_of_list_ascii a +++ string_of_list_ascii b.
Proof. induction a as [|c a IH]; cbn; [reflexivity | now rewrite IH]. Qed.

Lemma ext_from_suffix (rev_path : list ascii) :
  forall acc, exists stem, rev rev_path ++ acc = stem ++ ext_from rev_path acc.
Proof.
  induction rev_path as [|c rest IH]; intros acc; cbn [ext_from rev].
  - exists acc. now rewrite app_nil_r.
  - destruct (IsPathSeparator c).
    + eexists. now rewrite app_nil_r.
    + destruct (Ascii.eqb c "."%char).
      * exists (rev rest). now rewrite <- app_assoc.
      * destruct (IH (c :: acc)) as [stem Hstem].
        exists stem. now rewrite <- app_assoc.
Qed.

Lemma Ext_suffix (path : string) : exists stem, path = stem +++ Ext path.
Proof.
  unfold Ext.
  destruct (ext_from_suffix (rev (list_ascii_of_string path)) [])
    as [stem Hstem].
  rewrite rev_involutive, app_nil_r in Hstem.
  exists (string_of_list_ascii stem).
  rewrite <- string_of_list_ascii_app, <- Hstem.
  now rewrite string_of_list_ascii_of_string.
Qed.

Lemma substring_stem (a b : string) :
  substring 0 (String.length a) (a +++ b) = a.
Proof.
  induction a as [|c a IH]; cbn.
  - now destruct b.
  - now rewrite IH.
Qed.

(** X16. The base name and the extension split the last element of the
    path: [baseFilename] followed by [filepath.Ext] of the last element is
    that element again.  The extension is never longer than the element,
    so the slice that computes the base name is always in range. *)
Theorem baseFilename_and_extension (imagePath : string) :
  baseFilename imagePath +++ Ext (Base imagePath) = Base imagePath /\
  (String.length (Ext (Base imagePath)) <= String.length (Base imagePath))%nat /\
  String.length (baseFilename imagePath) =
    (String.length (Base imagePath) - String.length (Ext (Base imagePath)))%nat.
Proof.
  unfold baseFilename.
  destruct (Ext_suffix (Base imagePath)) as [stem Hstem].
  assert (String.length (Base imagePath)
          = (String.length stem + String.length (Ext (Base imagePath)))%nat)
    as Hlen by (rewrite Hstem at 1; apply length_append).
  assert (substring 0
            (String.length (Base imagePath)
             - String.length (Ext (Base imagePath)))
            (Base imagePath) = stem) as Hsub.
  { rewrite Hlen, Nat.add_sub. rewrite Hstem at 1. apply substring_stem. }
  rewrite Hsub. split; [now symmetry|]. split; lia.
Qed.

(* ================================================================== *)
(** ** An error on its way to the user *)
(* ================================================================== *)

(** X17. How an error of the encoder reaches the user of the batch
    program: when the region of the first detection of a picture converts
    to an image but cannot be encoded, nothing is written for the picture
    and the driver prints, after its progress line,
    [Error processing file <path>: error saving face image: failed to
    encode image to WebP: <error of the encoder>]. *)
Theorem encode_failure_report
    w file inputDir outputDir maxWidth maxHeight s face rest err :
  IsDir file = false ->
  Load w classifier_file = true ->
  IMRead_Empty w (Join w inputDir (Name file)) = false ->
  detections w (Join w inputDir (Name file)) maxWidth maxHeight = face :: rest ->
  ToImage w
    (first_crop
       (working_raster (Join w inputDir (Name file)) maxWidth maxHeight) face)
    = None ->
  Encode w
    (first_crop
       (working_raster (Join w inputDir (Name file)) maxWidth maxHeight) face)
    = Some err ->
  Batch.processImages_loop w [file] inputDir outputDir maxWidth maxHeight s =
  (tt,
   add_stdout s
     [processing_line (Join w inputDir (Name file));
      error_line (Join w inputDir (Name file))
        ("error saving face image: failed to encode image to WebP: " +++ err)]).
Proof.
  intros Hfile HLoad HRead Hd HToImage HEncode.
  rewrite processImages_loop_file by assumption. cbn zeta.
  rewrite batch_detectFace_run. unfold detect_outcome.
  rewrite HLoad, HRead. cbn [negb]. cbn zeta.
  fold (working_raster (Join w inputDir (Name file)) maxWidth maxHeight).
  fold (detections w (Join w inputDir (Name file)) maxWidth maxHeight).
  rewrite Hd. cbn [crop_files first_failure]. unfold save_outcome.
  fold (first_crop
          (working_raster (Join w inputDir (Name file)) maxWidth maxHeight) face).
  rewrite HToImage, HEncode.
  cbn [fst snd firstn Batch.processImages_loop ret].
  rewrite add_files_nil. unfold add_stdout. cbn [written stdout stderr].
  now rewrite <- app_assoc.
Qed.

Lemma encode_failure_report_witness :
  Batch.processImages_loop world_encoder_fails [mkFileInfo "a.jpg" false]
    "input_images" "output_images" 1024 1024 start =
  (tt,
   mkSys []
     [processing_line "input_images/a.jpg";
      error_line "input_images/a.jpg"
        ("error saving face image: failed to encode image to WebP: "
         +++ "unsupported pixel format")]
     []).
Proof.
  exact (encode_failure_report world_encoder_fails (mkFileInfo "a.jpg" false)
           "input_images" "output_images" 1024 1024 start face_a [face_b]
           "unsupported pixel format"
           eq_refl eq_refl eq_refl eq_refl eq_refl eq_refl).
Defined.
